(** * Export-format selection and the PULC converter of [label_studio/ai_center/converter.py]

    A shallow embedding of [AiCenterConverter]: the extended format
    enumeration [AiCenterFormat], [from_string], [_get_supported_formats],
    [convert] and [convert_to_pulc], followed by the properties of these
    functions.

    Conventions.
    - A Python [str] is a Rocq [string] holding the UTF-8 bytes of the text,
      so that concatenation, [join] and a write with [encoding="utf8"] act
      on the same byte sequence.
    - A raised exception is a value of [exn]; a function that may raise
      returns a [result].
    - Enum members are represented by their names: the source only uses
      members through [.name], through lookup by name and through equality.
    - [Format] comes from [label_studio_sdk]; its member names, in
      declaration order, are the section variable [Format_members]. *)

From stdpp Require Import base decidable option list strings gmap.

Local Open Scope string_scope.
Local Open Scope list_scope.
Set Warnings "-clear-no-such-hyp".

(** ** Characters that a Rocq string literal cannot hold *)

Module Chr.
Definition tab : string := String (Ascii.ascii_of_nat 9) EmptyString.
Definition newline : string := String (Ascii.ascii_of_nat 10) EmptyString.
Definition dquote : string := String (Ascii.ascii_of_nat 34) EmptyString.
Definition sep : Ascii.ascii := Ascii.ascii_of_nat 47.
End Chr.

(** ** Exceptions and results *)

Inductive exn : Type :=
  | ValueError (msg : string)
  | KeyError (key : string)
  | AttributeError (attr : string)
  | UnboundLocalError (var : string)
  | OtherError (descr : string).

Inductive result (A : Type) : Type :=
  | Ok (a : A)
  | Raise (e : exn).
Arguments Ok {A} a.
Arguments Raise {A} e.

Global Instance result_ret : MRet result := fun _ a => Ok a.
Global Instance result_bind : MBind result := fun _ _ f r =>
  match r with
  | Ok a => f a
  | Raise e => Raise e
  end.

Definition is_Ok {A} (r : result A) : Prop :=
  match r with Ok _ => True | Raise _ => False end.

(** ** The logging sink *)

Inductive level : Type := DEBUG | INFO | WARNING | ERROR | CRITICAL.

Global Instance level_eq_dec : EqDecision level.
Proof. solve_decision. Defined.

Definition log_record : Type := level * string.

(** [logger.error(msg)] appends one record of level [ERROR]. *)
Definition logger_error (msg : string) (log : list log_record) : list log_record :=
  log ++ [(ERROR, msg)].

(** ** The schema *)

(** One element of [info["inputs"]]: [type] is required, [valueType] and
    [valueList] are read with [.get] and may be absent.  A [valueList]
    attribute is a flag or the name of a task field. *)
Inductive attr_value : Type :=
  | ABool (b : bool)
  | AStr (s : string).

Record input_tag : Type := InputTag {
  it_type : string;
  it_valueType : option string;
  it_valueList : option attr_value
}.

(** One value of [self._schema]. *)
Record tag_info : Type := TagInfo {
  ti_type : string;
  ti_inputs : list input_tag
}.

(** [self._schema]: a dict from output-tag name to [tag_info], in insertion
    order. *)
Definition schema : Type := list (string * tag_info).

(** Truthiness of [input_tag.get("valueList")]: an absent key gives [None],
    a boolean counts as itself and a string counts when it is not empty. *)
Definition truthy (v : option attr_value) : bool :=
  match v with
  | Some (ABool b) => b
  | Some (AStr s) => negb (bool_decide (s = EmptyString))
  | None => false
  end.

(** The local variables of the classification loop, together with the
    records logged so far. *)
Record scan_state : Type := ScanState {
  output_tag_types : gset string;
  input_tag_types : gset string;
  is_mig : bool;
  log : list log_record
}.

Definition scan_init : scan_state :=
  {| output_tag_types := ∅; input_tag_types := ∅; is_mig := false; log := [] |}.

Definition url_text_message : string :=
  "valueType=" +:+ Chr.dquote +:+ "url" +:+ Chr.dquote +:+
  " are not supported for text inputs".

(** The test [input_tag["type"] == "Text" and input_tag.get("valueType") == "url"]. *)
Definition is_url_text (t : input_tag) : bool :=
  bool_decide (it_type t = "Text") && bool_decide (it_valueType t = Some "url").

(** Body of [for input_tag in info["inputs"]]. *)
Definition scan_input (st : scan_state) (t : input_tag) : scan_state :=
  let mig := if truthy (it_valueList t) then true else is_mig st in
  if is_url_text t then
    {| output_tag_types := output_tag_types st;
       input_tag_types := input_tag_types st;
       is_mig := mig;
       log := logger_error url_text_message (log st) |}
  else
    {| output_tag_types := output_tag_types st;
       input_tag_types := {[ it_type t ]} ∪ input_tag_types st;
       is_mig := mig;
       log := log st |}.

(** Body of [for info in self._schema.values()]. *)
Definition scan_info (st : scan_state) (info : tag_info) : scan_state :=
  foldl scan_input
    {| output_tag_types := {[ ti_type info ]} ∪ output_tag_types st;
       input_tag_types := input_tag_types st;
       is_mig := is_mig st;
       log := log st |}
    (ti_inputs info).

(** The whole classification loop of [_get_supported_formats]. *)
Definition classify (s : schema) : scan_state :=
  foldl scan_info scan_init (s.*2).

(** [x in s] on a Python set. *)
Definition mem (x : string) (s : gset string) : bool := bool_decide (x ∈ s).

(** [l.remove(x)]: drops the first occurrence, [ValueError] when absent. *)
Fixpoint list_remove (x : string) (l : list string) : result (list string) :=
  match l with
  | [] => Raise (ValueError "list.remove(x): x not in list")
  | y :: l' =>
      if decide (y = x) then Ok l'
      else r ← list_remove x l'; Ok (y :: r)
  end.

Section Formats.

(** Names of the members of [label_studio_sdk]'s [Format], in declaration
    order. *)
Variable Format_members : list string.

(** [AiCenterFormat = Enum('AiCenterFormat', list(Format.__members__) + ['PULC'])] *)
Definition AiCenterFormat : list string := Format_members ++ ["PULC"].

(** [Format.<attr>.name] *)
Definition Format_name (attr : string) : result string :=
  if decide (attr ∈ Format_members) then Ok attr else Raise (AttributeError attr).

(** [AiCenterFormat.<attr>.name] *)
Definition AiCenterFormat_name (attr : string) : result string :=
  if decide (attr ∈ AiCenterFormat) then Ok attr else Raise (AttributeError attr).

(** [cls[s]] on the extended enumeration. *)
Definition getitem (s : string) : result string :=
  if decide (s ∈ AiCenterFormat) then Ok s else Raise (KeyError s).

(** [from_string]: the [KeyError] of the lookup is turned into a
    [ValueError]. *)
Definition from_string (s : string) : result string :=
  match getitem s with
  | Ok m => Ok m
  | Raise (KeyError _) => Raise (ValueError ("Invalid value: " +:+ s))
  | Raise e => Raise e
  end.

(** [all_formats.remove(Format.<attr>.name)] *)
Definition remove_format (attr : string) (all_formats : list string)
  : result (list string) :=
  n ← Format_name attr; list_remove n all_formats.

(** The conditions of the removal chain, with Python's precedence of
    [and] over [or]. *)
Definition conll_cond (st : scan_state) : bool :=
  mem "Text" (input_tag_types st) && mem "Labels" (output_tag_types st).

Definition voc_cond (st : scan_state) : bool :=
  mem "Image" (input_tag_types st)
  && (mem "RectangleLabels" (output_tag_types st)
      || (mem "Rectangle" (output_tag_types st)
          && mem "Labels" (output_tag_types st))).

Definition coco_cond (st : scan_state) : bool :=
  (mem "Image" (input_tag_types st)
   && (mem "RectangleLabels" (output_tag_types st)
       || mem "PolygonLabels" (output_tag_types st)))
  || (mem "Rectangle" (output_tag_types st) && mem "Labels" (output_tag_types st))
  || (mem "PolygonLabels" (output_tag_types st) && mem "Labels" (output_tag_types st)).

Definition brush_cond (st : scan_state) : bool :=
  mem "Image" (input_tag_types st)
  && (mem "BrushLabels" (output_tag_types st)
      || mem "brushlabels" (output_tag_types st)
      || (mem "Brush" (output_tag_types st) && mem "Labels" (output_tag_types st))).

Definition asr_cond (st : scan_state) : bool :=
  (mem "Audio" (input_tag_types st) || mem "AudioPlus" (input_tag_types st))
  && mem "TextArea" (output_tag_types st).

Definition video_cond (st : scan_state) : bool :=
  mem "Video" (input_tag_types st) && mem "TimelineLabels" (output_tag_types st).

(** The part of [_get_supported_formats] after the classification loop:
    [all_formats] starts as the names of the extended enumeration and
    the removal chain runs over it. *)
Definition select_formats (st : scan_state) : result (list string) :=
  let all_formats := AiCenterFormat in
  all_formats ←
    (if negb (conll_cond st)
     then remove_format "CONLL2003" all_formats else Ok all_formats);
  all_formats ←
    (if is_mig st || negb (voc_cond st)
     then remove_format "VOC" all_formats else Ok all_formats);
  all_formats ←
    (if is_mig st || negb (coco_cond st)
     then all_formats ← remove_format "COCO" all_formats;
          remove_format "YOLO" all_formats
     else Ok all_formats);
  all_formats ←
    (if negb (brush_cond st)
     then all_formats ← remove_format "BRUSH_TO_NUMPY" all_formats;
          remove_format "BRUSH_TO_PNG" all_formats
     else Ok all_formats);
  all_formats ←
    (if negb (asr_cond st)
     then remove_format "ASR_MANIFEST" all_formats else Ok all_formats);
  all_formats ←
    (if is_mig st || video_cond st
     then remove_format "YOLO_OBB" all_formats else Ok all_formats);
  Ok all_formats.

(** The list returned when there is more than one data key. *)
Definition multi_key_formats : result (list string) :=
  a ← Format_name "JSON";
  b ← Format_name "JSON_MIN";
  c ← Format_name "CSV";
  d ← Format_name "TSV";
  e ← AiCenterFormat_name "PULC";
  Ok [a; b; c; d; e].

(** [_get_supported_formats]: the returned list (or the exception) and
    the records logged during the call. *)
Definition _get_supported_formats (_data_keys : list string) (_schema : schema)
  : result (list string) * list log_record :=
  if decide (1 < length _data_keys) then (multi_key_formats, [])
  else
    let st := classify _schema in
    (select_formats st, log st).

End Formats.

(** ** The filesystem and the records *)

(** Files are kept by path with their byte contents; directories by path. *)
Record FS : Type := MkFS {
  dirs : gset string;
  files : gmap string string
}.

(** Modelled from the spec: [ensure_dir] of [label_studio_sdk.converter.utils]
    is not part of the sources; the spec says it creates the output directory
    and succeeds if the directory already exists. *)
Definition ensure_dir (dir_path : string) (fs : FS) : FS :=
  {| dirs := {[ dir_path ]} ∪ dirs fs; files := files fs |}.

(** [io.open(path, mode="w", encoding="utf8")] followed by one [write]:
    the file is created or overwritten with the given text. *)
Definition write_file (path text : string) (fs : FS) : FS :=
  {| dirs := dirs fs; files := <[ path := text ]> (files fs) |}.

Definition starts_with_sep (s : string) : bool :=
  match s with
  | String c _ => bool_decide (c = Chr.sep)
  | EmptyString => false
  end.

Fixpoint ends_with_sep (s : string) : bool :=
  match s with
  | EmptyString => false
  | String c EmptyString => bool_decide (c = Chr.sep)
  | String _ s' => ends_with_sep s'
  end.

(** [os.path.join(a, b)] of [posixpath]. *)
Definition os_path_join (a b : string) : string :=
  if starts_with_sep b then b
  else if bool_decide (a = EmptyString) || ends_with_sep a then a +:+ b
  else a +:+ "/" +:+ b.

(** A value of an [output] field: a string or a list of strings. *)
Inductive pyval : Type :=
  | PStr (s : string)
  | PList (l : list string).

(** An annotation record: [item["input"]] and [item["output"]]. *)
Record item : Type := Item {
  input : gmap string string;
  output : gmap string pyval
}.

(** Modelled from the spec: [prettify_result] of
    [label_studio_sdk.converter.utils] is not part of the sources; the spec
    says scalar strings pass through unchanged and list-valued fields are
    joined with a comma into a single string. *)
Definition prettify_result (v : pyval) : string :=
  match v with
  | PStr s => s
  | PList l => String.concat "," l
  end.

(** [d[key]] on a dict. *)
Definition dict_get {V} (d : gmap string V) (key : string) : result V :=
  match d !! key with
  | Some v => Ok v
  | None => Raise (KeyError key)
  end.

(** The f-string appended to [records] for one item. *)
Definition pulc_line (it : item) : result string :=
  img ← dict_get (input it) "image";
  ch ← dict_get (output it) "choice";
  Ok (img +:+ Chr.tab +:+ prettify_result ch).

(** The loop [for item in item_iterator(input_data): records.append(...)]. *)
Fixpoint collect_records (records : list string) (items : list item)
  : result (list string) :=
  match items with
  | [] => Ok records
  | it :: rest =>
      line ← pulc_line it;
      collect_records (records ++ [line]) rest
  end.

(** The [format] argument of [convert]. *)
Inductive format_arg : Type :=
  | FStr (s : string)
  | FMember (name : string)
  | FOther.

Definition is_str (f : format_arg) : bool :=
  match f with FStr _ => true | _ => false end.

Section Converter.

Variable Format_members : list string.

(** The record sources of the base class: the items a generator yields
    and the exception, if any, that ends it. *)
Definition iterator : Type := FS → string → list item * option exn.
Variables iter_from_dir iter_from_json_file : iterator.

(** [**kwargs] and the base class's [convert]. *)
Variable kwargs : Type.
Variable super_convert :
  FS → string → string → format_arg → bool → kwargs → result unit * FS.

Definition convert_to_pulc (fs : FS) (input_data output_dir : string)
    (is_dir : bool) : result unit * FS :=
  let fs := ensure_dir output_dir fs in
  let output_file := os_path_join output_dir "result.txt" in
  let item_iterator := if is_dir then iter_from_dir else iter_from_json_file in
  let '(items, pending) := item_iterator fs input_data in
  match collect_records [] items with
  | Raise e => (Raise e, fs)
  | Ok records =>
      match pending with
      | Some e => (Raise e, fs)
      | None => (Ok (), write_file output_file (String.concat Chr.newline records) fs)
      end
  end.

(** [convert]: the local [_format] is bound only in the string branch. *)
Definition convert (fs : FS) (input_data output_data : string)
    (format : format_arg) (is_dir : bool) (kw : kwargs) : result unit * FS :=
  let bound : result (option string) :=
    match format with
    | FStr s => m ← from_string Format_members s; Ok (Some m)
    | _ => Ok None
    end in
  match bound with
  | Raise e => (Raise e, fs)
  | Ok None => (Raise (UnboundLocalError "_format"), fs)
  | Ok (Some _format) =>
      if decide (_format = "PULC")
      then convert_to_pulc fs input_data output_data is_dir
      else super_convert fs input_data output_data format is_dir kw
  end.

End Converter.

(** ** Assumptions on the imported enumeration *)

(** The members of [Format] that the module refers to by attribute. *)
Definition referenced_members : list string :=
  ["JSON"; "JSON_MIN"; "CSV"; "TSV"; "CONLL2003"; "COCO"; "VOC"; "YOLO";
   "YOLO_OBB"; "BRUSH_TO_NUMPY"; "BRUSH_TO_PNG"; "ASR_MANIFEST"].

(** The module imports without error only if the functional [Enum] call
    receives pairwise distinct names (so [PULC] is not a member of [Format])
    and if every attribute used in the class body of [AiCenterConverter]
    exists on [Format]. *)
Definition Format_wf (Format_members : list string) : Prop :=
  NoDup (AiCenterFormat Format_members) ∧ referenced_members ⊆ Format_members.

(** [Format] declares the four structural formats in the order in which
    the multi-key branch lists them. *)
Definition Format_structural_order (Format_members : list string) : Prop :=
  ["JSON"; "JSON_MIN"; "CSV"; "TSV"] `sublist_of` Format_members.

(** An enumeration that satisfies the assumptions; the members after
    [YOLO_OBB] are never mentioned by the converter. *)
Definition sample_Format : list string :=
  ["JSON"; "JSON_MIN"; "CSV"; "TSV"; "CONLL2003"; "COCO"; "VOC";
   "BRUSH_TO_NUMPY"; "BRUSH_TO_PNG"; "ASR_MANIFEST"; "YOLO"; "YOLO_OBB";
   "CSV_OLD"; "YOLO_WITH_IMAGES"; "COCO_WITH_IMAGES"].

(** ** The removal chain as a rule table *)

(** [all_formats.remove(Format.x.name)] for each [x] of [xs], in order. *)
Fixpoint remove_formats (Format_members xs l : list string) : result (list string) :=
  match xs with
  | [] => Ok l
  | [x] => remove_format Format_members x l
  | x :: xs' => l' ← remove_format Format_members x l; remove_formats Format_members xs' l'
  end.

(** One [if] of the chain: the condition under which the names are removed. *)
Definition rule : Type := bool * list string.

Fixpoint run_rules (Format_members : list string) (rs : list rule) (l : list string)
  : result (list string) :=
  match rs with
  | [] => Ok l
  | (b, xs) :: rs' =>
      l' ← (if b then remove_formats Format_members xs l else Ok l);
      run_rules Format_members rs' l'
  end.

Definition rules (st : scan_state) : list rule :=
  [ (negb (conll_cond st), ["CONLL2003"]);
    (is_mig st || negb (voc_cond st), ["VOC"]);
    (is_mig st || negb (coco_cond st), ["COCO"; "YOLO"]);
    (negb (brush_cond st), ["BRUSH_TO_NUMPY"; "BRUSH_TO_PNG"]);
    (negb (asr_cond st), ["ASR_MANIFEST"]);
    (is_mig st || video_cond st, ["YOLO_OBB"]) ].

(** Every name a rule table mentions, and the names it removes. *)
Definition all_names (rs : list rule) : list string := mjoin (rs.*2).

Fixpoint active_names (rs : list rule) : list string :=
  match rs with
  | [] => []
  | (b, xs) :: rs' => (if b then xs else []) ++ active_names rs'
  end.

(** The formats that some schema can make [_get_supported_formats] drop. *)
Definition removable : list string :=
  ["CONLL2003"; "VOC"; "COCO"; "YOLO"; "BRUSH_TO_NUMPY"; "BRUSH_TO_PNG";
   "ASR_MANIFEST"; "YOLO_OBB"].

(** The inputs that the loop does not skip, and the schema restricted to
    them. *)
Definition url_free (t : input_tag) : Prop := is_url_text t = false.

Definition drop_url_text (s : schema) : schema :=
  (λ p, (p.1, {| ti_type := ti_type p.2;
                  ti_inputs := filter url_free (ti_inputs p.2) |}))
  <$> s.

Definition all_inputs (s : schema) : list input_tag :=
  mjoin (ti_inputs <$> s.*2).

(** ** Sample inputs *)

(** One rectangle-labelling control over an image. *)
Definition schema_rect : schema :=
  [("label", TagInfo "RectangleLabels" [InputTag "Image" None None])].

(** The same control over a list-valued image input. *)
Definition schema_rect_list : schema :=
  [("label", TagInfo "RectangleLabels" [InputTag "Image" None (Some (AStr "$images"))])].

(** A text-labelling control whose only input is a text given by URL. *)
Definition schema_url_text : schema :=
  [("ner", TagInfo "Labels" [InputTag "Text" (Some "url") None])].

(** A video control with timeline labels. *)
Definition schema_video : schema :=
  [("tl", TagInfo "TimelineLabels" [InputTag "Video" None None])].

(** The record of the spec's example:
    [{"input": {"image": "a.jpg"}, "output": {"choice": ["cat", "dog"]}}]. *)
Definition record_a : item :=
  {| input := {[ "image" := "a.jpg" ]};
     output := {[ "choice" := PList ["cat"; "dog"] ]} |}.

(** A record with a scalar choice. *)
Definition record_b : item :=
  {| input := {[ "image" := "b.png" ]};
     output := {[ "choice" := PStr "bird" ]} |}.

(** A record source that yields the given items whatever it is asked. *)
Definition iter_const (items : list item) : iterator :=
  λ _ _, (items, None).

(** A base-class [convert] that does nothing. *)
Definition super_noop : FS → string → string → format_arg → bool → unit → result unit * FS :=
  λ fs _ _ _ _ _, (Ok (), fs).

Definition fs_empty : FS := {| dirs := ∅; files := ∅ |}.

(** ** Notions used to state the properties of the PULC file *)

(** The record has the two fields that [convert_to_pulc] reads. *)
Definition has_fields (it : item) : Prop :=
  is_Some (input it !! "image") ∧ is_Some (output it !! "choice").

(** [line] is the image value, a tab and the prettified choice of [it]. *)
Definition line_of (it : item) (line : string) : Prop :=
  ∃ img ch, input it !! "image" = Some img ∧ output it !! "choice" = Some ch ∧
            line = img +:+ Chr.tab +:+ prettify_result ch.

(** [text.split(c)] for a one-character separator. *)
Fixpoint split_on (c : Ascii.ascii) (text : string) : list string :=
  match text with
  | EmptyString => [EmptyString]
  | String a rest =>
      if decide (a = c) then EmptyString :: split_on c rest
      else match split_on c rest with
           | l :: ls => String a l :: ls
           | [] => [String a EmptyString]
           end
  end.

Fixpoint occurs (c : Ascii.ascii) (text : string) : bool :=
  match text with
  | EmptyString => false
  | String a rest => bool_decide (a = c) || occurs c rest
  end.

Definition newline_char : Ascii.ascii := Ascii.ascii_of_nat 10.

(** ** Further sample inputs and notions *)

(** The formats whose removal also depends on the list-valued flag. *)
Definition gated : list string := ["VOC"; "COCO"; "YOLO"; "YOLO_OBB"].

(** The formats that a schema without any control cannot offer. *)
Definition unmet_when_empty : list string :=
  ["CONLL2003"; "VOC"; "COCO"; "YOLO"; "BRUSH_TO_NUMPY"; "BRUSH_TO_PNG";
   "ASR_MANIFEST"].

(** A text-labelling control over a plain text. *)
Definition schema_ner : schema :=
  [("ner", TagInfo "Labels" [InputTag "Text" None None])].

(** A brush control over an image. *)
Definition schema_brush : schema :=
  [("mask", TagInfo "BrushLabels" [InputTag "Image" None None])].

(** A transcription control over an audio. *)
Definition schema_asr : schema :=
  [("transcript", TagInfo "TextArea" [InputTag "Audio" None None])].

(** A text control whose URL-valued input is also list-valued. *)
Definition schema_url_list : schema :=
  [("ner", TagInfo "Labels" [InputTag "Text" (Some "url") (Some (ABool true))])].

(** A record without the [choice] field. *)
Definition record_no_choice : item :=
  {| input := {[ "image" := "c.png" ]}; output := ∅ |}.


(* ================================================================= *)
(** * Properties *)

(** ** [list.remove] on a list without duplicates *)

Lemma filter_ne_id (x : string) (l : list string) :
  x ∉ l → filter (λ y, y ≠ x) l = l.
Proof.
  induction l as [|y l IH]; intros Hx; [done|].
  apply not_elem_of_cons in Hx as [Hxy Hxl].
  rewrite filter_cons_True by congruence.
  by rewrite IH.
Qed.

Lemma list_remove_filter (x : string) (l : list string) :
  NoDup l → x ∈ l → list_remove x l = Ok (filter (λ y, y ≠ x) l).
Proof.
  induction l as [|y l IH]; intros Hnd Hx.
  - by apply elem_of_nil in Hx.
  - apply NoDup_cons in Hnd as [Hy Hnd]. simpl.
    destruct (decide (y = x)) as [->|Hne].
    + rewrite filter_cons_False by (intros H; by apply H).
      by rewrite filter_ne_id.
    + apply elem_of_cons in Hx as [Hx|Hx]; [congruence|].
      rewrite IH by done. simpl.
      by rewrite filter_cons_True.
Qed.

Lemma list_remove_absent (x : string) (l : list string) :
  x ∉ l → list_remove x l = Raise (ValueError "list.remove(x): x not in list").
Proof.
  induction l as [|y l IH]; intros Hx; [done|].
  apply not_elem_of_cons in Hx as [Hxy Hxl]. simpl.
  destruct (decide (y = x)); [congruence|].
  by rewrite IH.
Qed.

Lemma remove_format_filter ms (x : string) (l : list string) :
  x ∈ ms → NoDup l → x ∈ l →
  remove_format ms x l = Ok (filter (λ y, y ≠ x) l).
Proof.
  intros Hm Hnd Hx. unfold remove_format, Format_name.
  destruct (decide (x ∈ ms)); [|done]. simpl.
  by apply list_remove_filter.
Qed.

Lemma remove_formats_filter ms (xs l : list string) :
  NoDup xs → xs ⊆ ms → NoDup l → xs ⊆ l →
  remove_formats ms xs l = Ok (filter (λ y, y ∉ xs) l).
Proof.
  revert l. induction xs as [|x xs IH]; intros l Hxs Hms Hl Hsub.
  - simpl. f_equal. symmetry. induction l as [|y l IHl]; [done|].
    rewrite filter_cons_True by apply not_elem_of_nil.
    apply NoDup_cons in Hl as [_ Hl]. rewrite IHl; [done|done|].
    intros z Hz. by apply elem_of_nil in Hz.
  - apply NoDup_cons in Hxs as [Hx Hxs].
    assert (Hstep : remove_format ms x l = Ok (filter (λ y, y ≠ x) l)).
    { apply remove_format_filter; [|done|]; set_solver. }
    assert (Hrest : remove_formats ms xs (filter (λ y, y ≠ x) l)
                    = Ok (filter (λ y, y ∉ x :: xs) l)).
    { rewrite IH; [|done|set_solver|by apply NoDup_filter|].
      - f_equal. rewrite list_filter_filter. apply list_filter_iff.
        intros y. rewrite not_elem_of_cons. tauto.
      - intros y Hy. apply list_elem_of_filter. split; [|set_solver].
        intros ->. done. }
    destruct xs as [|x' xs'].
    + simpl. rewrite Hstep. f_equal. apply list_filter_iff.
      intros y. rewrite list_elem_of_singleton. tauto.
    + change (remove_formats ms (x :: x' :: xs') l)
        with (l' ← remove_format ms x l; remove_formats ms (x' :: xs') l').
      rewrite Hstep. exact Hrest.
Qed.

(** ** The rule table *)

Lemma run_rules_filter ms (rs : list rule) (l : list string) :
  NoDup (all_names rs) → all_names rs ⊆ ms → NoDup l → all_names rs ⊆ l →
  run_rules ms rs l = Ok (filter (λ y, y ∉ active_names rs) l).
Proof.
  revert l. induction rs as [|[b xs] rs IH]; intros l Hnd Hms Hl Hsub.
  - simpl. f_equal. symmetry.
    erewrite list_filter_iff; [apply (remove_formats_filter ms [] l) in Hl|].
    + simpl in Hl. injection Hl as Hl. symmetry. exact Hl.
    + apply NoDup_nil_2.
    + set_solver.
    + set_solver.
    + done.
  - unfold all_names in *. simpl in *.
    apply NoDup_app in Hnd as (Hxs & Hdisj & Hrs).
    destruct b; simpl.
    + rewrite remove_formats_filter; [|done|set_solver|done|set_solver]. simpl.
      rewrite IH; [|done|set_solver|by apply NoDup_filter|].
      * f_equal. rewrite list_filter_filter. apply list_filter_iff.
        intros y. rewrite elem_of_app. tauto.
      * intros y Hy. apply list_elem_of_filter. split; [|set_solver].
        intros Hyx. by apply (Hdisj y).
    + rewrite IH; [done|done|set_solver|done|set_solver].
Qed.

Lemma select_formats_run_rules ms st :
  select_formats ms st = run_rules ms (rules st) (AiCenterFormat ms).
Proof. reflexivity. Qed.

Lemma rules_all_names st :
  all_names (rules st) = removable.
Proof. reflexivity. Qed.

(** Membership and the like between closed lists of names, by evaluation. *)
Ltac closed_member := apply (bool_decide_unpack _); by vm_compute.

Lemma removable_referenced : removable ⊆ referenced_members.
Proof. apply (bool_decide_unpack _). by vm_compute. Qed.

Lemma removable_NoDup : NoDup removable.
Proof. apply (bool_decide_unpack _). by vm_compute. Qed.

Lemma Format_wf_members ms x :
  Format_wf ms → x ∈ referenced_members → x ∈ ms.
Proof. intros [_ Hsub] Hx. by apply Hsub. Qed.

Lemma AiCenterFormat_elem ms x :
  x ∈ AiCenterFormat ms ↔ x ∈ ms ∨ x = "PULC".
Proof. unfold AiCenterFormat. rewrite elem_of_app, list_elem_of_singleton. done. Qed.

(** Under the assumptions on [Format], the removal chain never raises and
    returns the enumeration filtered by the rule table. *)
Lemma select_formats_filter ms st :
  Format_wf ms →
  select_formats ms st
  = Ok (filter (λ y, y ∉ active_names (rules st)) (AiCenterFormat ms)).
Proof.
  intros Hwf. rewrite select_formats_run_rules.
  pose proof removable_referenced as Href.
  apply run_rules_filter; rewrite ?rules_all_names.
  - apply removable_NoDup.
  - intros x Hx. apply (Format_wf_members ms x Hwf). by apply Href.
  - apply Hwf.
  - intros x Hx. apply AiCenterFormat_elem. left.
    apply (Format_wf_members ms x Hwf). by apply Href.
Qed.

Lemma select_formats_elem ms st fmts x :
  Format_wf ms → select_formats ms st = Ok fmts →
  x ∈ fmts ↔ x ∈ AiCenterFormat ms ∧ x ∉ active_names (rules st).
Proof.
  intros Hwf. rewrite select_formats_filter by done.
  intros [= <-]. rewrite list_elem_of_filter. tauto.
Qed.

Lemma multi_key_formats_ok ms :
  Format_wf ms →
  multi_key_formats ms = Ok ["JSON"; "JSON_MIN"; "CSV"; "TSV"; "PULC"].
Proof.
  intros Hwf. unfold multi_key_formats, Format_name, AiCenterFormat_name.
  assert (Hin : ∀ x, x ∈ ["JSON"; "JSON_MIN"; "CSV"; "TSV"] → x ∈ ms).
  { intros x Hx. apply (Format_wf_members ms x Hwf).
    unfold referenced_members.
    rewrite !elem_of_cons in Hx. rewrite !elem_of_cons. tauto. }
  destruct (decide ("JSON" ∈ ms)) as [_|[]]; [|apply Hin; set_solver].
  destruct (decide ("JSON_MIN" ∈ ms)) as [_|[]]; [|apply Hin; set_solver].
  destruct (decide ("CSV" ∈ ms)) as [_|[]]; [|apply Hin; set_solver].
  destruct (decide ("TSV" ∈ ms)) as [_|[]]; [|apply Hin; set_solver].
  destruct (decide ("PULC" ∈ AiCenterFormat ms)) as [_|[]]; [done|].
  apply AiCenterFormat_elem. by right.
Qed.

Lemma sample_Format_wf : Format_wf sample_Format.
Proof. split; apply (bool_decide_unpack _); by vm_compute. Defined.

Lemma sample_Format_structural_order : Format_structural_order sample_Format.
Proof.
  unfold Format_structural_order, sample_Format.
  do 4 apply sublist_skip. apply sublist_nil_l.
Defined.

(** ** Which names the rule table removes *)

Lemma active_names_elem (rs : list rule) (x : string) :
  x ∈ active_names rs ↔ ∃ xs, (true, xs) ∈ rs ∧ x ∈ xs.
Proof.
  induction rs as [|[b xs] rs IH]; simpl.
  - split; [intros H; by apply elem_of_nil in H|].
    intros (xs & H & _). by apply elem_of_nil in H.
  - rewrite elem_of_app, IH. split.
    + intros [Hx|(ys & Hys & Hx)].
      * destruct b; [|by apply elem_of_nil in Hx].
        exists xs. split; [apply list_elem_of_here|done].
      * exists ys. split; [by apply list_elem_of_further|done].
    + intros (ys & Hys & Hx). apply elem_of_cons in Hys as [[= <- <-]|Hys].
      * by left.
      * right. by exists ys.
Qed.

Lemma active_names_subseteq (rs : list rule) : active_names rs ⊆ all_names rs.
Proof.
  induction rs as [|[b xs] rs IH]; [done|].
  unfold all_names in *. simpl. intros x Hx.
  apply elem_of_app in Hx as [Hx|Hx]; apply elem_of_app.
  - left. destruct b; [done|by apply elem_of_nil in Hx].
  - right. by apply IH.
Qed.

Lemma elem_of_if_nil (b : bool) (xs : list string) (x : string) :
  x ∈ (if b then xs else []) ↔ b = true ∧ x ∈ xs.
Proof.
  destruct b.
  - split; [intros H; by split|by intros [_ H]].
  - split; [intros H; by apply elem_of_nil in H|by intros [? _]].
Qed.

Ltac rule_cases st :=
  unfold rules; simpl;
  rewrite ?elem_of_app, ?elem_of_if_nil, ?elem_of_cons, ?elem_of_nil,
    ?orb_true_iff, ?negb_true_iff;
  intuition congruence.

Lemma removed_CONLL2003 st :
  "CONLL2003" ∈ active_names (rules st) ↔ conll_cond st = false.
Proof. rule_cases st. Qed.

Lemma removed_VOC st :
  "VOC" ∈ active_names (rules st) ↔ is_mig st = true ∨ voc_cond st = false.
Proof. rule_cases st. Qed.

Lemma removed_COCO st :
  "COCO" ∈ active_names (rules st) ↔ is_mig st = true ∨ coco_cond st = false.
Proof. rule_cases st. Qed.

Lemma removed_YOLO st :
  "YOLO" ∈ active_names (rules st) ↔ is_mig st = true ∨ coco_cond st = false.
Proof. rule_cases st. Qed.

Lemma removed_YOLO_OBB st :
  "YOLO_OBB" ∈ active_names (rules st) ↔ is_mig st = true ∨ video_cond st = true.
Proof. rule_cases st. Qed.

Lemma removed_removable st (x : string) :
  x ∈ active_names (rules st) → x ∈ removable.
Proof. intros Hx. rewrite <- (rules_all_names st). by apply active_names_subseteq. Qed.

(** ** [_get_supported_formats] *)

Lemma mem_true (x : string) (s : gset string) : mem x s = true ↔ x ∈ s.
Proof. unfold mem. apply bool_decide_eq_true. Qed.

Lemma referenced_in_enum ms (x : string) :
  Format_wf ms → x ∈ referenced_members → x ∈ AiCenterFormat ms.
Proof.
  intros Hwf Hx. apply AiCenterFormat_elem. left.
  by apply (Format_wf_members ms x Hwf).
Qed.

Lemma multi_key_call ms (dk : list string) (s : schema) :
  Format_wf ms → (1 < length dk)%nat →
  _get_supported_formats ms dk s
  = (Ok ["JSON"; "JSON_MIN"; "CSV"; "TSV"; "PULC"], []).
Proof.
  intros Hwf Hdk. unfold _get_supported_formats.
  destruct (decide (1 < length dk)); [|done].
  by rewrite multi_key_formats_ok.
Qed.

Lemma single_key_call ms (dk : list string) (s : schema) :
  Format_wf ms → (length dk ≤ 1)%nat →
  _get_supported_formats ms dk s
  = (Ok (filter (λ y, y ∉ active_names (rules (classify s))) (AiCenterFormat ms)),
     log (classify s)).
Proof.
  intros Hwf Hdk. unfold _get_supported_formats.
  destruct (decide (1 < length dk)); [lia|].
  by rewrite select_formats_filter.
Qed.

Lemma single_key_elem ms (dk : list string) (s : schema) :
  Format_wf ms → (length dk ≤ 1)%nat →
  ∃ fmts, (_get_supported_formats ms dk s).1 = Ok fmts ∧
    ∀ x, x ∈ fmts ↔ x ∈ AiCenterFormat ms ∧ x ∉ active_names (rules (classify s)).
Proof.
  intros Hwf Hdk. rewrite single_key_call by done. simpl.
  eexists. split; [done|]. intros x. rewrite list_elem_of_filter. tauto.
Qed.

(** The conditions of the chain, read as propositions over the two sets. *)
Lemma voc_cond_true st :
  voc_cond st = true ↔
  "Image" ∈ input_tag_types st ∧
  ("RectangleLabels" ∈ output_tag_types st
   ∨ ("Rectangle" ∈ output_tag_types st ∧ "Labels" ∈ output_tag_types st)).
Proof.
  unfold voc_cond.
  rewrite !andb_true_iff, !orb_true_iff, !andb_true_iff, !mem_true. tauto.
Qed.

Lemma coco_cond_true st :
  coco_cond st = true ↔
  ("Image" ∈ input_tag_types st
   ∧ ("RectangleLabels" ∈ output_tag_types st
      ∨ "PolygonLabels" ∈ output_tag_types st))
  ∨ ("Rectangle" ∈ output_tag_types st ∧ "Labels" ∈ output_tag_types st)
  ∨ ("PolygonLabels" ∈ output_tag_types st ∧ "Labels" ∈ output_tag_types st).
Proof.
  unfold coco_cond.
  rewrite !orb_true_iff, !andb_true_iff, !orb_true_iff, !mem_true. tauto.
Qed.

Lemma video_cond_true st :
  video_cond st = true ↔
  "Video" ∈ input_tag_types st ∧ "TimelineLabels" ∈ output_tag_types st.
Proof. unfold video_cond. rewrite andb_true_iff, !mem_true. done. Qed.

(** C1: when there is more than one data key, [_get_supported_formats]
    returns exactly [JSON, JSON_MIN, CSV, TSV, PULC], whatever the schema
    holds (tag types, list-valued inputs, URL-valued text inputs), and the
    classification loop does not run (nothing is logged). *)
Theorem C1_multiple_data_keys ms (dk : list string) (s : schema) :
  Format_wf ms → (1 < length dk)%nat →
  _get_supported_formats ms dk s
  = (Ok ["JSON"; "JSON_MIN"; "CSV"; "TSV"; "PULC"], []).
Proof.
  intros Hwf Hdk. unfold _get_supported_formats.
  destruct (decide (1 < length dk)) as [_|Hle]; [|by destruct Hle].
  f_equal. by apply multi_key_formats_ok.
Qed.

Lemma C1_multiple_data_keys_witness :
  Format_wf sample_Format ∧ (1 < length ["image"; "text"])%nat ∧
  _get_supported_formats sample_Format ["image"; "text"] schema_rect_list
  = (Ok ["JSON"; "JSON_MIN"; "CSV"; "TSV"; "PULC"], []).
Proof.
  split; [exact sample_Format_wf|]. split; [simpl; lia|].
  apply (C1_multiple_data_keys sample_Format ["image"; "text"] schema_rect_list).
  - exact sample_Format_wf.
  - simpl; lia.
Defined.

(** C5: with at most one data key, COCO and YOLO are both offered exactly
    when no input is list-valued and the tag types satisfy
    [Image ∈ inputs ∧ (RectangleLabels ∈ outputs ∨ PolygonLabels ∈ outputs)]
    or [Rectangle ∈ outputs ∧ Labels ∈ outputs] or
    [PolygonLabels ∈ outputs ∧ Labels ∈ outputs]; COCO is offered exactly
    when YOLO is. *)
Theorem C5_coco_yolo ms (dk : list string) (s : schema) :
  Format_wf ms → (length dk ≤ 1)%nat →
  ∃ fmts, (_get_supported_formats ms dk s).1 = Ok fmts ∧
    let I := input_tag_types (classify s) in
    let O := output_tag_types (classify s) in
    (("COCO" ∈ fmts ∧ "YOLO" ∈ fmts) ↔
       is_mig (classify s) = false ∧
       (("Image" ∈ I ∧ ("RectangleLabels" ∈ O ∨ "PolygonLabels" ∈ O))
        ∨ ("Rectangle" ∈ O ∧ "Labels" ∈ O)
        ∨ ("PolygonLabels" ∈ O ∧ "Labels" ∈ O))) ∧
    ("COCO" ∈ fmts ↔ "YOLO" ∈ fmts).
Proof.
  intros Hwf Hdk.
  destruct (single_key_elem ms dk s Hwf Hdk) as (fmts & Hcall & Hin).
  exists fmts. split; [done|]. simpl.
  assert (Hc : "COCO" ∈ AiCenterFormat ms).
  { apply referenced_in_enum; [done|]. closed_member. }
  assert (Hy : "YOLO" ∈ AiCenterFormat ms).
  { apply referenced_in_enum; [done|]. closed_member. }
  rewrite !Hin, removed_COCO, removed_YOLO, <- coco_cond_true.
  destruct (is_mig (classify s)), (coco_cond (classify s));
    intuition congruence.
Qed.

Lemma C5_coco_yolo_witness :
  Format_wf sample_Format ∧ (length ["image"] ≤ 1)%nat ∧
  ∃ fmts, (_get_supported_formats sample_Format ["image"] schema_rect).1 = Ok fmts ∧
    "COCO" ∈ fmts ∧ "YOLO" ∈ fmts.
Proof.
  split; [exact sample_Format_wf|]. split; [simpl; lia|].
  destruct (C5_coco_yolo sample_Format ["image"] schema_rect sample_Format_wf)
    as (fmts & Hcall & Hboth & _); [simpl; lia|].
  exists fmts. split; [exact Hcall|].
  apply Hboth. split; [reflexivity|].
  left. split; [|left]; apply (bool_decide_unpack _); by vm_compute.
Defined.

(** C6: with at most one data key, VOC is offered exactly when no input is
    list-valued, [Image ∈ inputs] and [RectangleLabels ∈ outputs] or both
    [Rectangle] and [Labels] are in the outputs; with outputs
    [{RectangleLabels}], inputs [{Image}] and a list-valued input, VOC, COCO
    and YOLO are all absent. *)
Theorem C6_voc ms (dk : list string) (s : schema) :
  Format_wf ms → (length dk ≤ 1)%nat →
  ∃ fmts, (_get_supported_formats ms dk s).1 = Ok fmts ∧
    let I := input_tag_types (classify s) in
    let O := output_tag_types (classify s) in
    ("VOC" ∈ fmts ↔
       is_mig (classify s) = false ∧ "Image" ∈ I ∧
       ("RectangleLabels" ∈ O ∨ ("Rectangle" ∈ O ∧ "Labels" ∈ O))) ∧
    ((O = {[ "RectangleLabels" ]}) → (I = {[ "Image" ]}) → is_mig (classify s) = true →
     ("VOC" ∉ fmts) ∧ ("COCO" ∉ fmts) ∧ ("YOLO" ∉ fmts)).
Proof.
  intros Hwf Hdk.
  destruct (single_key_elem ms dk s Hwf Hdk) as (fmts & Hcall & Hin).
  exists fmts. split; [done|]. simpl.
  assert (Hv : "VOC" ∈ AiCenterFormat ms).
  { apply referenced_in_enum; [done|]. closed_member. }
  rewrite !Hin, removed_VOC, removed_COCO, removed_YOLO. split.
  - rewrite <- voc_cond_true.
    destruct (is_mig (classify s)), (voc_cond (classify s));
      intuition congruence.
  - intros _ _ Hmig. rewrite Hmig. tauto.
Qed.

Lemma C6_voc_witness :
  Format_wf sample_Format ∧ (length ["image"] ≤ 1)%nat ∧
  ∃ fmts, (_get_supported_formats sample_Format ["image"] schema_rect_list).1 = Ok fmts ∧
    ("VOC" ∉ fmts) ∧ ("COCO" ∉ fmts) ∧ ("YOLO" ∉ fmts).
Proof.
  split; [exact sample_Format_wf|]. split; [simpl; lia|].
  destruct (C6_voc sample_Format ["image"] schema_rect_list sample_Format_wf)
    as (fmts & Hcall & _ & Hex); [simpl; lia|].
  exists fmts. split; [exact Hcall|].
  apply Hex; reflexivity.
Defined.

(** C7: with at most one data key, YOLO_OBB is offered exactly when no
    input is list-valued and it is not the case that [Video ∈ inputs] and
    [TimelineLabels ∈ outputs]. *)
Theorem C7_yolo_obb ms (dk : list string) (s : schema) :
  Format_wf ms → (length dk ≤ 1)%nat →
  ∃ fmts, (_get_supported_formats ms dk s).1 = Ok fmts ∧
    ("YOLO_OBB" ∈ fmts ↔
       is_mig (classify s) = false ∧
       ¬ ("Video" ∈ input_tag_types (classify s)
          ∧ "TimelineLabels" ∈ output_tag_types (classify s))).
Proof.
  intros Hwf Hdk.
  destruct (single_key_elem ms dk s Hwf Hdk) as (fmts & Hcall & Hin).
  exists fmts. split; [done|].
  assert (Hv : "YOLO_OBB" ∈ AiCenterFormat ms).
  { apply referenced_in_enum; [done|]. closed_member. }
  rewrite Hin, removed_YOLO_OBB, <- video_cond_true.
  destruct (is_mig (classify s)), (video_cond (classify s));
    intuition congruence.
Qed.

Lemma C7_yolo_obb_witness :
  Format_wf sample_Format ∧ (length ["video"] ≤ 1)%nat ∧
  ∃ fmts, (_get_supported_formats sample_Format ["video"] schema_video).1 = Ok fmts ∧
    "YOLO_OBB" ∉ fmts.
Proof.
  split; [exact sample_Format_wf|]. split; [simpl; lia|].
  destruct (C7_yolo_obb sample_Format ["video"] schema_video sample_Format_wf)
    as (fmts & Hcall & Hiff); [simpl; lia|].
  exists fmts. split; [exact Hcall|].
  intros Hin. apply Hiff in Hin as [_ Hno]. apply Hno.
  split; apply (bool_decide_unpack _); by vm_compute.
Defined.

(** C8: the returned sequence is drawn from the extended enumeration and
    keeps its declaration order (it is a subsequence of the enumeration),
    and the result is a function of the tag-type sets, the list-valued flag
    and the multiple-data-keys flag alone: two calls that agree on these
    return the same sequence. *)
Theorem C8_subsequence_deterministic ms (dk1 dk2 : list string) (s1 s2 : schema) :
  Format_wf ms → Format_structural_order ms →
  (∃ fmts, (_get_supported_formats ms dk1 s1).1 = Ok fmts ∧
     fmts ⊆ AiCenterFormat ms ∧ fmts `sublist_of` AiCenterFormat ms) ∧
  (bool_decide (1 < length dk1)%nat = bool_decide (1 < length dk2)%nat →
   output_tag_types (classify s1) = output_tag_types (classify s2) →
   input_tag_types (classify s1) = input_tag_types (classify s2) →
   is_mig (classify s1) = is_mig (classify s2) →
   (_get_supported_formats ms dk1 s1).1 = (_get_supported_formats ms dk2 s2).1).
Proof.
  intros Hwf Hord. split.
  - destruct (decide (1 < length dk1)%nat) as [Hdk|Hdk].
    + rewrite multi_key_call by done. simpl. eexists. split; [done|].
      assert (Hsub : ["JSON"; "JSON_MIN"; "CSV"; "TSV"; "PULC"]
                     `sublist_of` AiCenterFormat ms).
      { apply (sublist_app ["JSON"; "JSON_MIN"; "CSV"; "TSV"] ms ["PULC"] ["PULC"]); done. }
      split; [by apply sublist_subseteq|done].
    + rewrite single_key_call by (done || lia). simpl. eexists. split; [done|].
      assert (Hsub : filter (λ y, y ∉ active_names (rules (classify s1)))
                       (AiCenterFormat ms) `sublist_of` AiCenterFormat ms)
        by apply sublist_filter.
      split; [by apply sublist_subseteq|done].
  - intros Hk HO HI Hm. unfold _get_supported_formats.
    destruct (decide (1 < length dk1)%nat) as [H1|H1],
             (decide (1 < length dk2)%nat) as [H2|H2]; simpl.
    + done.
    + rewrite bool_decide_eq_true_2, bool_decide_eq_false_2 in Hk by done. done.
    + rewrite bool_decide_eq_false_2, bool_decide_eq_true_2 in Hk by done. done.
    + unfold select_formats, rules, conll_cond, voc_cond, coco_cond, brush_cond,
        asr_cond, video_cond. by rewrite HO, HI, Hm.
Qed.

Lemma C8_subsequence_deterministic_witness :
  Format_wf sample_Format ∧ Format_structural_order sample_Format ∧
  (∃ fmts, (_get_supported_formats sample_Format ["image"] schema_rect).1 = Ok fmts ∧
     fmts ⊆ AiCenterFormat sample_Format ∧
     fmts `sublist_of` AiCenterFormat sample_Format) ∧
  (_get_supported_formats sample_Format ["image"] schema_rect).1
  = (_get_supported_formats sample_Format [] schema_rect).1.
Proof.
  split; [exact sample_Format_wf|].
  split; [exact sample_Format_structural_order|].
  destruct (C8_subsequence_deterministic sample_Format ["image"] [] schema_rect
              schema_rect sample_Format_wf sample_Format_structural_order)
    as [Hsub Hdet].
  split; [exact Hsub|]. apply Hdet; reflexivity.
Defined.

(** C9: every call returns a sequence that contains JSON, JSON_MIN, CSV,
    TSV and PULC, so the result is never empty; with at most one data key,
    every member of the enumeration other than CONLL2003, VOC, COCO, YOLO,
    YOLO_OBB, BRUSH_TO_NUMPY, BRUSH_TO_PNG and ASR_MANIFEST is kept. *)
Theorem C9_structural_formats_kept ms (dk : list string) (s : schema) :
  Format_wf ms →
  ∃ fmts, (_get_supported_formats ms dk s).1 = Ok fmts ∧
    "JSON" ∈ fmts ∧ "JSON_MIN" ∈ fmts ∧ "CSV" ∈ fmts ∧ "TSV" ∈ fmts ∧
    "PULC" ∈ fmts ∧ fmts ≠ [] ∧
    ((length dk ≤ 1)%nat →
     ∀ x, x ∈ AiCenterFormat ms → x ∉ removable → x ∈ fmts).
Proof.
  intros Hwf.
  destruct (decide (1 < length dk)%nat) as [Hdk|Hdk].
  - rewrite multi_key_call by done. simpl. eexists. split; [done|].
    rewrite !elem_of_cons. repeat split; try tauto; [done|lia].
  - assert (Hle : (length dk ≤ 1)%nat) by lia.
    destruct (single_key_elem ms dk s Hwf Hle) as (fmts & Hcall & Hin).
    exists fmts. split; [done|].
    assert (Hkeep : ∀ x, x ∈ AiCenterFormat ms → x ∉ removable → x ∈ fmts).
    { intros x Hx Hnr. apply Hin. split; [done|].
      intros Hrem. by apply Hnr, (removed_removable (classify s)). }
    assert (Hnr : ∀ x, x ∈ ["JSON"; "JSON_MIN"; "CSV"; "TSV"; "PULC"] →
                       x ∉ removable).
    { intros x Hx Hr. unfold removable in Hr.
      repeat rewrite elem_of_cons in Hx. repeat rewrite elem_of_cons in Hr.
      rewrite elem_of_nil in Hx. rewrite elem_of_nil in Hr.
      intuition congruence. }
    assert (Hen : ∀ x, x ∈ ["JSON"; "JSON_MIN"; "CSV"; "TSV"; "PULC"] →
                       x ∈ AiCenterFormat ms).
    { intros x Hx. repeat rewrite elem_of_cons in Hx. rewrite elem_of_nil in Hx.
      destruct (decide (x = "PULC")) as [->|Hne].
      - apply AiCenterFormat_elem. by right.
      - apply referenced_in_enum; [done|]. unfold referenced_members.
        rewrite !elem_of_cons. tauto. }
    assert (Hfive : ∀ x, x ∈ ["JSON"; "JSON_MIN"; "CSV"; "TSV"; "PULC"] → x ∈ fmts).
    { intros x Hx. apply Hkeep; [by apply Hen|by apply Hnr]. }
    assert (Hj : "JSON" ∈ fmts) by (apply Hfive; rewrite !elem_of_cons; tauto).
    repeat split; try (apply Hfive; rewrite !elem_of_cons; tauto).
    + intros ->. by apply elem_of_nil in Hj.
    + intros _. exact Hkeep.
Qed.

Lemma C9_structural_formats_kept_witness :
  Format_wf sample_Format ∧
  ∃ fmts, (_get_supported_formats sample_Format ["text"] schema_url_text).1 = Ok fmts ∧
    "JSON" ∈ fmts ∧ "PULC" ∈ fmts ∧ "CSV_OLD" ∈ fmts ∧ fmts ≠ [].
Proof.
  split; [exact sample_Format_wf|].
  destruct (C9_structural_formats_kept sample_Format ["text"] schema_url_text
              sample_Format_wf)
    as (fmts & Hcall & Hj & _ & _ & _ & Hp & Hne & Hkeep).
  exists fmts. split; [exact Hcall|]. split; [exact Hj|]. split; [exact Hp|].
  split; [|exact Hne].
  apply Hkeep; [simpl; lia| |]; apply (bool_decide_unpack _); by vm_compute.
Defined.

(** ** The classification loop *)

Lemma is_url_text_true (t : input_tag) :
  is_url_text t = true ↔ it_type t = "Text" ∧ it_valueType t = Some "url".
Proof.
  unfold is_url_text. rewrite andb_true_iff, !bool_decide_eq_true. done.
Qed.

Lemma scan_inputs_output st (ts : list input_tag) :
  output_tag_types (foldl scan_input st ts) = output_tag_types st.
Proof.
  revert st. induction ts as [|t ts IH]; intros st; [done|].
  simpl. rewrite IH. unfold scan_input. by destruct (is_url_text t).
Qed.

Lemma scan_inputs_input st (ts : list input_tag) :
  input_tag_types (foldl scan_input st ts)
  = input_tag_types st ∪ list_to_set (it_type <$> filter url_free ts).
Proof.
  revert st. induction ts as [|t ts IH]; intros st.
  - simpl. set_solver.
  - simpl. rewrite IH. unfold scan_input.
    destruct (is_url_text t) eqn:Hu; simpl.
    + rewrite filter_cons_False by (unfold url_free; congruence). done.
    + rewrite filter_cons_True by done. simpl. set_solver.
Qed.

Lemma scan_inputs_mig st (ts : list input_tag) :
  is_mig (foldl scan_input st ts)
  = is_mig st || existsb (λ t, truthy (it_valueList t)) ts.
Proof.
  revert st. induction ts as [|t ts IH]; intros st.
  - simpl. by rewrite orb_false_r.
  - simpl. rewrite IH. unfold scan_input.
    destruct (is_url_text t), (truthy (it_valueList t)), (is_mig st); done.
Qed.

Lemma scan_inputs_log st (ts : list input_tag) :
  log (foldl scan_input st ts)
  = log st ++ ((λ _, (ERROR, url_text_message))
               <$> filter (λ t, is_url_text t = true) ts).
Proof.
  revert st. induction ts as [|t ts IH]; intros st.
  - simpl. by rewrite app_nil_r.
  - simpl. rewrite IH. unfold scan_input.
    destruct (is_url_text t) eqn:Hu; simpl.
    + rewrite filter_cons_True by done. unfold logger_error.
      by rewrite <- app_assoc.
    + rewrite filter_cons_False by congruence. done.
Qed.

Lemma scan_infos_output st (infos : list tag_info) :
  output_tag_types (foldl scan_info st infos)
  = output_tag_types st ∪ list_to_set (ti_type <$> infos).
Proof.
  revert st. induction infos as [|i infos IH]; intros st.
  - simpl. set_solver.
  - simpl. rewrite IH. unfold scan_info. rewrite scan_inputs_output. simpl.
    set_solver.
Qed.

Lemma scan_infos_input st (infos : list tag_info) :
  input_tag_types (foldl scan_info st infos)
  = input_tag_types st
    ∪ list_to_set (it_type <$> filter url_free (mjoin (ti_inputs <$> infos))).
Proof.
  revert st. induction infos as [|i infos IH]; intros st.
  - simpl. set_solver.
  - simpl. rewrite IH. unfold scan_info. rewrite scan_inputs_input. simpl.
    rewrite filter_app, fmap_app, list_to_set_app_L. set_solver.
Qed.

Lemma scan_infos_mig st (infos : list tag_info) :
  is_mig (foldl scan_info st infos)
  = is_mig st
    || existsb (λ t, truthy (it_valueList t)) (mjoin (ti_inputs <$> infos)).
Proof.
  revert st. induction infos as [|i infos IH]; intros st.
  - simpl. by rewrite orb_false_r.
  - simpl. rewrite IH. unfold scan_info. rewrite scan_inputs_mig. simpl.
    rewrite existsb_app. by rewrite orb_assoc.
Qed.

Lemma scan_infos_log st (infos : list tag_info) :
  log (foldl scan_info st infos)
  = log st ++ ((λ _, (ERROR, url_text_message))
               <$> filter (λ t, is_url_text t = true) (mjoin (ti_inputs <$> infos))).
Proof.
  revert st. induction infos as [|i infos IH]; intros st.
  - simpl. by rewrite app_nil_r.
  - simpl. rewrite IH. unfold scan_info. rewrite scan_inputs_log. simpl.
    rewrite filter_app, fmap_app. by rewrite <- app_assoc.
Qed.

(** The four results of the loop, in closed form. *)
Lemma classify_output (s : schema) :
  output_tag_types (classify s) = list_to_set (ti_type <$> s.*2).
Proof. unfold classify. rewrite scan_infos_output. simpl. set_solver. Qed.

Lemma classify_input (s : schema) :
  input_tag_types (classify s)
  = list_to_set (it_type <$> filter url_free (all_inputs s)).
Proof. unfold classify. rewrite scan_infos_input. simpl. set_solver. Qed.

Lemma classify_mig (s : schema) :
  is_mig (classify s) = existsb (λ t, truthy (it_valueList t)) (all_inputs s).
Proof. unfold classify. by rewrite scan_infos_mig. Qed.

Lemma classify_log (s : schema) :
  log (classify s)
  = (λ _, (ERROR, url_text_message))
    <$> filter (λ t, is_url_text t = true) (all_inputs s).
Proof. unfold classify. by rewrite scan_infos_log. Qed.

Lemma all_inputs_drop_url_text (s : schema) :
  all_inputs (drop_url_text s) = filter url_free (all_inputs s).
Proof.
  induction s as [|[k i] s IH]; [done|].
  unfold all_inputs, drop_url_text in *. rewrite !fmap_cons. simpl.
  rewrite filter_app. by rewrite <- IH.
Qed.

Lemma types_drop_url_text (s : schema) :
  ti_type <$> (drop_url_text s).*2 = ti_type <$> s.*2.
Proof.
  induction s as [|[k i] s IH]; [done|].
  unfold drop_url_text in *. rewrite !fmap_cons. simpl. by rewrite <- IH.
Qed.

Lemma filter_url_free_idemp (ts : list input_tag) :
  filter url_free (filter url_free ts) = filter url_free ts.
Proof.
  rewrite list_filter_filter. apply list_filter_iff. tauto.
Qed.

Lemma all_inputs_elem (s : schema) (t : input_tag) :
  t ∈ all_inputs s ↔ ∃ info, info ∈ s.*2 ∧ t ∈ ti_inputs info.
Proof.
  unfold all_inputs. rewrite list_elem_of_join. split.
  - intros (ts & Ht & Hts). apply list_elem_of_fmap in Hts as (info & -> & Hi).
    by exists info.
  - intros (info & Hi & Ht). exists (ti_inputs info). split; [done|].
    apply list_elem_of_fmap. by exists info.
Qed.

(** C4 (as stated, refuted): for the schema whose only input is a text
    given by URL, the call logs exactly one record, of level [ERROR]; no
    record of level [WARNING] is emitted. *)
Lemma C4_warning_level_counterexample :
  (∃ info t, info ∈ schema_url_text.*2 ∧ t ∈ ti_inputs info ∧
             it_type t = "Text" ∧ it_valueType t = Some "url") ∧
  (_get_supported_formats sample_Format ["text"] schema_url_text).2
  = [(ERROR, url_text_message)] ∧
  ¬ ∃ msg, (WARNING, msg) ∈ (_get_supported_formats sample_Format ["text"] schema_url_text).2.
Proof.
  split.
  - exists (TagInfo "Labels" [InputTag "Text" (Some "url") None]),
           (InputTag "Text" (Some "url") None).
    repeat split; simpl; apply list_elem_of_here.
  - split; [by vm_compute|].
    intros (msg & Hin).
    change ((WARNING, msg) ∈ [(ERROR, url_text_message)]) in Hin.
    apply list_elem_of_singleton in Hin. discriminate Hin.
Qed.

(** C4 (amended): for every schema with an input whose type is [Text] and
    whose valueType is [url], a call with at most one data key completes,
    logs a diagnostic of level [ERROR] (every record it logs has that
    level), and computes the tag-type sets of the schema from which such
    inputs are removed: the skipped input adds nothing to the input types
    and every other input is processed as usual. *)
Theorem C4_url_text_skipped ms (dk : list string) (s : schema)
    (info : tag_info) (t : input_tag) :
  Format_wf ms → (length dk ≤ 1)%nat →
  info ∈ s.*2 → t ∈ ti_inputs info →
  it_type t = "Text" → it_valueType t = Some "url" →
  is_Ok (_get_supported_formats ms dk s).1 ∧
  (ERROR, url_text_message) ∈ (_get_supported_formats ms dk s).2 ∧
  (∀ r, r ∈ (_get_supported_formats ms dk s).2 → r.1 = ERROR) ∧
  input_tag_types (classify s) = input_tag_types (classify (drop_url_text s)) ∧
  output_tag_types (classify s) = output_tag_types (classify (drop_url_text s)) ∧
  (∀ x, x ∈ input_tag_types (classify s) ↔
        ∃ t', t' ∈ all_inputs s ∧ url_free t' ∧ it_type t' = x).
Proof.
  intros Hwf Hdk Hinfo Ht Hty Hvt.
  rewrite single_key_call by done. simpl.
  split; [done|]. rewrite classify_log. split; [|split; [|split; [|split]]].
  - apply list_elem_of_fmap. exists t. split; [done|].
    apply list_elem_of_filter. split.
    + by apply is_url_text_true.
    + apply all_inputs_elem. by exists info.
  - intros r Hr. apply list_elem_of_fmap in Hr as (t' & -> & _). done.
  - rewrite !classify_input, all_inputs_drop_url_text.
    by rewrite filter_url_free_idemp.
  - rewrite !classify_output. by rewrite types_drop_url_text.
  - intros x. rewrite classify_input, elem_of_list_to_set, list_elem_of_fmap.
    split.
    + intros (t' & -> & Ht'). apply list_elem_of_filter in Ht' as [Hf Ht'].
      exists t'. split; [exact Ht'|]. split; [exact Hf|reflexivity].
    + intros (t' & Ht' & Hf & <-). exists t'. split; [done|].
      by apply list_elem_of_filter.
Qed.

Lemma C4_url_text_skipped_witness :
  Format_wf sample_Format ∧ (length ["text"] ≤ 1)%nat ∧
  is_Ok (_get_supported_formats sample_Format ["text"] schema_url_text).1 ∧
  (ERROR, url_text_message)
    ∈ (_get_supported_formats sample_Format ["text"] schema_url_text).2 ∧
  input_tag_types (classify schema_url_text) = ∅.
Proof.
  split; [exact sample_Format_wf|]. split; [simpl; lia|].
  destruct (C4_url_text_skipped sample_Format ["text"] schema_url_text
              (TagInfo "Labels" [InputTag "Text" (Some "url") None])
              (InputTag "Text" (Some "url") None) sample_Format_wf)
    as (Hok & Hlog & _ & Hin & _).
  - simpl; lia.
  - apply list_elem_of_here.
  - apply list_elem_of_here.
  - reflexivity.
  - reflexivity.
  - split; [exact Hok|]. split; [exact Hlog|]. rewrite Hin. reflexivity.
Defined.

(** ** Lines of a text *)

Lemma occurs_cons_false (c a : Ascii.ascii) (text : string) :
  occurs c (String a text) = false ↔ a ≠ c ∧ occurs c text = false.
Proof.
  simpl. rewrite orb_false_iff, bool_decide_eq_false. done.
Qed.

Lemma split_on_free (c : Ascii.ascii) (text : string) :
  occurs c text = false → split_on c text = [text].
Proof.
  induction text as [|a text IH]; intros Hfree; [done|].
  apply occurs_cons_false in Hfree as [Hne Hfree]. simpl.
  destruct (decide (a = c)); [done|]. by rewrite IH.
Qed.

Lemma split_on_sep (c : Ascii.ascii) (head rest : string) :
  occurs c head = false →
  split_on c (head +:+ String c rest) = head :: split_on c rest.
Proof.
  induction head as [|a head IH]; intros Hfree.
  - simpl. by destruct (decide (c = c)).
  - apply occurs_cons_false in Hfree as [Hne Hfree]. simpl.
    destruct (decide (a = c)); [done|]. by rewrite IH.
Qed.

(** Splitting a newline-joined text gives back the joined lines, when no
    line holds the separator and there is at least one line. *)
Lemma split_on_concat (c : Ascii.ascii) (lines : list string) :
  lines ≠ [] → Forall (λ l, occurs c l = false) lines →
  split_on c (String.concat (String c EmptyString) lines) = lines.
Proof.
  induction lines as [|l lines IH]; intros Hne Hfree; [done|].
  apply Forall_cons in Hfree as [Hl Hfree].
  destruct lines as [|l' lines'].
  - simpl. by apply split_on_free.
  - change (String.concat (String c EmptyString) (l :: l' :: lines'))
      with (l +:+ String c (String.concat (String c EmptyString) (l' :: lines'))).
    rewrite split_on_sep by done. by rewrite IH.
Qed.

(** ** [convert_to_pulc] and [convert] *)

Lemma pulc_line_ok (it : item) :
  has_fields it → ∃ line, pulc_line it = Ok line ∧ line_of it line.
Proof.
  intros [[img Himg] [ch Hch]]. unfold pulc_line, dict_get.
  rewrite Himg, Hch. simpl. eexists. split; [done|]. by exists img, ch.
Qed.

Lemma collect_records_ok (records : list string) (items : list item) :
  Forall has_fields items →
  ∃ lines, collect_records records items = Ok (records ++ lines) ∧
           Forall2 line_of items lines.
Proof.
  revert records. induction items as [|it items IH]; intros records Hall.
  - exists []. by rewrite app_nil_r.
  - apply Forall_cons in Hall as [Hit Hall].
    destruct (pulc_line_ok it Hit) as (line & Hline & Hof).
    destruct (IH (records ++ [line]) Hall) as (lines & Hrec & Hlines).
    exists (line :: lines). simpl. rewrite Hline. simpl. rewrite Hrec.
    rewrite <- app_assoc. split; [done|]. by constructor.
Qed.

(** The first record that lacks a field stops the loop with a [KeyError]. *)
Lemma collect_records_missing (records : list string) (items : list item) :
  ¬ Forall has_fields items →
  collect_records records items = Raise (KeyError "image")
  ∨ collect_records records items = Raise (KeyError "choice").
Proof.
  revert records. induction items as [|it items IH]; intros records Hnot.
  - destruct Hnot. constructor.
  - simpl. unfold pulc_line, dict_get.
    destruct (input it !! "image") as [img|] eqn:Himg; [|by left].
    destruct (output it !! "choice") as [ch|] eqn:Hch; [|by right].
    simpl. apply IH. intros Hall. apply Hnot. constructor; [|done].
    split; eauto.
Qed.

Lemma line_of_newline_free (it : item) (line : string) :
  line_of it line →
  (∀ img, input it !! "image" = Some img → occurs newline_char img = false) →
  (∀ ch, output it !! "choice" = Some ch →
         occurs newline_char (prettify_result ch) = false) →
  occurs newline_char line = false.
Proof.
  intros (img & ch & Himg & Hch & ->) Hi Hc.
  specialize (Hi img Himg). specialize (Hc ch Hch).
  revert Hi. generalize (prettify_result ch) Hc. clear.
  intros p Hp. induction img as [|a img IH]; intros Hi.
  - exact Hp.
  - apply occurs_cons_false in Hi as [Hne Hi].
    change (String a img +:+ Chr.tab +:+ p) with (String a (img +:+ Chr.tab +:+ p)).
    apply occurs_cons_false. split; [done|by apply IH].
Qed.

Lemma from_string_member ms (s : string) :
  s ∈ AiCenterFormat ms → from_string ms s = Ok s.
Proof.
  intros Hs. unfold from_string, getitem.
  by destruct (decide (s ∈ AiCenterFormat ms)).
Qed.

Lemma from_string_unknown ms (s : string) :
  s ∉ AiCenterFormat ms →
  from_string ms s = Raise (ValueError ("Invalid value: " +:+ s)).
Proof.
  intros Hs. unfold from_string, getitem.
  by destruct (decide (s ∈ AiCenterFormat ms)).
Qed.

Lemma PULC_member ms : "PULC" ∈ AiCenterFormat ms.
Proof. apply AiCenterFormat_elem. by right. Qed.

(** The exceptions of [convert_to_pulc]: a missing field of a record, or
    the exception that ends the record source. *)
Lemma convert_to_pulc_raises (iter_dir iter_json : iterator) (fs : FS)
    (input_data output_dir : string) (is_dir : bool) (e : exn) :
  (convert_to_pulc iter_dir iter_json fs input_data output_dir is_dir).1 = Raise e →
  e = KeyError "image" ∨ e = KeyError "choice" ∨
  ∃ items, (if is_dir then iter_dir else iter_json)
             (ensure_dir output_dir fs) input_data = (items, Some e).
Proof.
  unfold convert_to_pulc.
  destruct ((if is_dir then iter_dir else iter_json)
              (ensure_dir output_dir fs) input_data) as [items pending] eqn:Hit.
  destruct (decide (Forall has_fields items)) as [Hall|Hnot].
  - destruct (collect_records_ok [] items Hall) as (lines & -> & _).
    destruct pending as [e'|]; simpl; [|done].
    intros [= ->]. right. right. by exists items.
  - destruct (collect_records_missing [] items Hnot) as [-> | ->]; simpl;
      intros [= <-]; auto.
Qed.

(** The written file lies directly inside the output directory. *)
Lemma result_path (output_dir : string) :
  output_dir ≠ EmptyString → ends_with_sep output_dir = false →
  os_path_join output_dir "result.txt" = output_dir +:+ "/result.txt".
Proof.
  intros Hne Hsep. unfold os_path_join. simpl.
  rewrite bool_decide_eq_false_2 by done. by rewrite Hsep.
Qed.

Lemma convert_pulc ms (iter_dir iter_json : iterator) (K : Type)
    (super : FS → string → string → format_arg → bool → K → result unit * FS)
    (fs : FS) (input_data output_data : string) (is_dir : bool) (kw : K) :
  convert ms iter_dir iter_json K super fs input_data output_data (FStr "PULC") is_dir kw
  = convert_to_pulc iter_dir iter_json fs input_data output_data is_dir.
Proof.
  unfold convert. rewrite from_string_member by apply PULC_member. simpl.
  by destruct (decide ("PULC" = "PULC")).
Qed.

(** C2: a format name outside the extended enumeration makes [convert]
    raise the [ValueError] of [from_string] (the spec's InvalidFormat) and
    leaves the filesystem as it was, whatever the record sources and the
    base class would do; a name of the enumeration resolves, and [convert]
    is then the PULC serializer or the base class's [convert]; the PULC
    serializer itself raises only for a record without the two fields or
    when the record source fails. *)
Theorem C2_invalid_format ms (iter_dir iter_json : iterator) (K : Type)
    (super : FS → string → string → format_arg → bool → K → result unit * FS)
    (fs : FS) (input_data output_data s : string) (is_dir : bool) (kw : K) :
  (s ∉ AiCenterFormat ms →
   convert ms iter_dir iter_json K super fs input_data output_data (FStr s) is_dir kw
   = (Raise (ValueError ("Invalid value: " +:+ s)), fs)) ∧
  (s ∈ AiCenterFormat ms →
   from_string ms s = Ok s ∧
   convert ms iter_dir iter_json K super fs input_data output_data (FStr s) is_dir kw
   = if decide (s = "PULC")
     then convert_to_pulc iter_dir iter_json fs input_data output_data is_dir
     else super fs input_data output_data (FStr s) is_dir kw) ∧
  (∀ e,
   (convert ms iter_dir iter_json K super fs input_data output_data (FStr "PULC") is_dir kw).1
   = Raise e →
   e = KeyError "image" ∨ e = KeyError "choice" ∨
   ∃ items, (if is_dir then iter_dir else iter_json)
              (ensure_dir output_data fs) input_data = (items, Some e)).
Proof.
  split; [|split].
  - intros Hs. unfold convert. by rewrite from_string_unknown.
  - intros Hs. split; [by apply from_string_member|].
    unfold convert. by rewrite from_string_member.
  - intros e. rewrite convert_pulc. apply convert_to_pulc_raises.
Qed.

Lemma C2_invalid_format_witness :
  ("not_a_real_format" ∉ AiCenterFormat sample_Format) ∧
  convert sample_Format (iter_const [record_a]) (iter_const [record_a]) unit
    super_noop fs_empty "in" "out" (FStr "not_a_real_format") true tt
  = (Raise (ValueError "Invalid value: not_a_real_format"), fs_empty) ∧
  "COCO" ∈ AiCenterFormat sample_Format ∧
  from_string sample_Format "COCO" = Ok "COCO".
Proof.
  assert (Hno : "not_a_real_format" ∉ AiCenterFormat sample_Format)
    by (apply (bool_decide_unpack _); by vm_compute).
  assert (Hyes : "COCO" ∈ AiCenterFormat sample_Format)
    by (apply (bool_decide_unpack _); by vm_compute).
  split; [exact Hno|]. split; [|split; [exact Hyes|]].
  - apply (C2_invalid_format sample_Format (iter_const [record_a])
             (iter_const [record_a]) unit super_noop fs_empty "in" "out"
             "not_a_real_format" true tt). exact Hno.
  - apply (C2_invalid_format sample_Format (iter_const [record_a])
             (iter_const [record_a]) unit super_noop fs_empty "in" "out"
             "COCO" true tt). exact Hyes.
Defined.

(** C3: when the record source yields records that all have the input
    field [image] and the output field [choice], converting to PULC
    succeeds, creates the output directory and writes one file,
    [result.txt] inside it, whose text is the records' lines
    [image, TAB, prettified choice] joined by newlines with nothing after
    the last line; a list-valued choice is joined with commas; splitting
    the text at newlines gives back one line per record; for the single
    record with image [a.jpg] and choice [cat, dog] the text is
    [a.jpg], TAB, [cat,dog]. *)
Theorem C3_pulc_result_file ms (iter_dir iter_json : iterator) (K : Type)
    (super : FS → string → string → format_arg → bool → K → result unit * FS)
    (fs : FS) (input_data output_dir : string) (is_dir : bool) (kw : K)
    (items : list item) :
  (if is_dir then iter_dir else iter_json) (ensure_dir output_dir fs) input_data
  = (items, None) →
  Forall has_fields items →
  ∃ lines,
    Forall2 line_of items lines ∧
    convert ms iter_dir iter_json K super fs input_data output_dir (FStr "PULC") is_dir kw
    = (Ok (),
       {| dirs := {[ output_dir ]} ∪ dirs fs;
          files := <[ os_path_join output_dir "result.txt"
                      := String.concat Chr.newline lines ]> (files fs) |}) ∧
    (∀ l, prettify_result (PList l) = String.concat "," l) ∧
    (lines ≠ [] → Forall (λ l, occurs newline_char l = false) lines →
     split_on newline_char (String.concat Chr.newline lines) = lines) ∧
    (items = [record_a] →
     String.concat Chr.newline lines = "a.jpg" +:+ Chr.tab +:+ "cat,dog").
Proof.
  intros Hiter Hall.
  destruct (collect_records_ok [] items Hall) as (lines & Hrec & Hlines).
  exists lines. split; [done|]. split; [|split; [done|split]].
  - rewrite convert_pulc. unfold convert_to_pulc.
    destruct is_dir; rewrite Hiter, Hrec; done.
  - apply split_on_concat.
  - intros ->.
    apply Forall2_cons_inv_l in Hlines as (line & rest & Hline & Hrest & ->).
    apply Forall2_nil_inv_l in Hrest as ->.
    destruct Hline as (img & ch & Himg & Hch & ->).
    unfold record_a in Himg, Hch. simpl in Himg, Hch.
    rewrite lookup_singleton_eq in Himg. rewrite lookup_singleton_eq in Hch.
    injection Himg as <-. injection Hch as <-. reflexivity.
Qed.

Lemma C3_pulc_result_file_witness :
  Forall has_fields [record_a] ∧
  convert sample_Format (iter_const [record_a]) (iter_const [record_a]) unit
    super_noop fs_empty "in" "out" (FStr "PULC") true tt
  = (Ok (),
     {| dirs := {[ "out" ]};
        files := {[ "out/result.txt" := "a.jpg" +:+ Chr.tab +:+ "cat,dog" ]} |}).
Proof.
  assert (Hall : Forall has_fields [record_a]).
  { constructor; [|constructor]. split; eexists; reflexivity. }
  split; [exact Hall|].
  destruct (C3_pulc_result_file sample_Format (iter_const [record_a])
              (iter_const [record_a]) unit super_noop fs_empty "in" "out" true tt
              [record_a] eq_refl Hall)
    as (lines & _ & Hconv & _ & _ & Hex).
  rewrite Hconv, (Hex eq_refl). reflexivity.
Defined.

(** C10: when the [format] argument is not a string, [convert] raises the
    unbound-local error for [_format] and leaves the filesystem as it was,
    whatever the record sources and the base class would do: neither the
    PULC serializer nor the base class's [convert] is reached. *)
Theorem C10_non_string_format ms (iter_dir iter_json : iterator) (K : Type)
    (super : FS → string → string → format_arg → bool → K → result unit * FS)
    (fs : FS) (input_data output_data : string) (format : format_arg)
    (is_dir : bool) (kw : K) :
  is_str format = false →
  convert ms iter_dir iter_json K super fs input_data output_data format is_dir kw
  = (Raise (UnboundLocalError "_format"), fs).
Proof.
  intros Hns. unfold convert. by destruct format.
Qed.

Lemma C10_non_string_format_witness :
  is_str (FMember "PULC") = false ∧
  convert sample_Format (iter_const [record_a]) (iter_const [record_a]) unit
    super_noop fs_empty "in" "out" (FMember "PULC") true tt
  = (Raise (UnboundLocalError "_format"), fs_empty).
Proof.
  split; [reflexivity|].
  apply (C10_non_string_format sample_Format (iter_const [record_a])
           (iter_const [record_a]) unit super_noop fs_empty "in" "out"
           (FMember "PULC") true tt).
  reflexivity.
Defined.

(* ================================================================= *)
(** * Further properties of the format selection *)

Lemma removed_BRUSH_TO_NUMPY st :
  "BRUSH_TO_NUMPY" ∈ active_names (rules st) ↔ brush_cond st = false.
Proof. rule_cases st. Qed.

Lemma removed_BRUSH_TO_PNG st :
  "BRUSH_TO_PNG" ∈ active_names (rules st) ↔ brush_cond st = false.
Proof. rule_cases st. Qed.

Lemma removed_ASR_MANIFEST st :
  "ASR_MANIFEST" ∈ active_names (rules st) ↔ asr_cond st = false.
Proof. rule_cases st. Qed.

(** Every removal, by name and by the condition that triggers it. *)
Lemma removed_cases st (x : string) :
  x ∈ active_names (rules st) ↔
  (x = "CONLL2003" ∧ conll_cond st = false)
  ∨ (x = "VOC" ∧ (is_mig st = true ∨ voc_cond st = false))
  ∨ ((x = "COCO" ∨ x = "YOLO") ∧ (is_mig st = true ∨ coco_cond st = false))
  ∨ ((x = "BRUSH_TO_NUMPY" ∨ x = "BRUSH_TO_PNG") ∧ brush_cond st = false)
  ∨ (x = "ASR_MANIFEST" ∧ asr_cond st = false)
  ∨ (x = "YOLO_OBB" ∧ (is_mig st = true ∨ video_cond st = true)).
Proof.
  unfold rules; simpl.
  rewrite ?elem_of_app, ?elem_of_if_nil, ?elem_of_cons, ?elem_of_nil,
    ?orb_true_iff, ?negb_true_iff.
  tauto.
Qed.

Lemma conll_cond_true st :
  conll_cond st = true ↔
  "Text" ∈ input_tag_types st ∧ "Labels" ∈ output_tag_types st.
Proof. unfold conll_cond. rewrite andb_true_iff, !mem_true. done. Qed.

Lemma brush_cond_true st :
  brush_cond st = true ↔
  "Image" ∈ input_tag_types st ∧
  ("BrushLabels" ∈ output_tag_types st ∨ "brushlabels" ∈ output_tag_types st
   ∨ ("Brush" ∈ output_tag_types st ∧ "Labels" ∈ output_tag_types st)).
Proof.
  unfold brush_cond.
  rewrite !andb_true_iff, !orb_true_iff, !andb_true_iff, !mem_true. tauto.
Qed.

Lemma asr_cond_true st :
  asr_cond st = true ↔
  ("Audio" ∈ input_tag_types st ∨ "AudioPlus" ∈ input_tag_types st)
  ∧ "TextArea" ∈ output_tag_types st.
Proof.
  unfold asr_cond. rewrite andb_true_iff, orb_true_iff, !mem_true. done.
Qed.

Lemma not_false_iff_true (b : bool) : ¬ b = false ↔ b = true.
Proof. destruct b; intuition congruence. Qed.

(** X1: with at most one data key, CONLL2003 is offered exactly when
    [Text] is among the input types and [Labels] among the output types;
    a list-valued input does not matter for it. *)
Theorem conll2003_offered_iff ms (dk : list string) (s : schema) :
  Format_wf ms → (length dk ≤ 1)%nat →
  ∃ fmts, (_get_supported_formats ms dk s).1 = Ok fmts ∧
    ("CONLL2003" ∈ fmts ↔
       "Text" ∈ input_tag_types (classify s)
       ∧ "Labels" ∈ output_tag_types (classify s)).
Proof.
  intros Hwf Hdk.
  destruct (single_key_elem ms dk s Hwf Hdk) as (fmts & Hcall & Hin).
  exists fmts. split; [done|].
  assert (Hc : "CONLL2003" ∈ AiCenterFormat ms).
  { apply referenced_in_enum; [done|]. closed_member. }
  rewrite Hin, removed_CONLL2003, not_false_iff_true, conll_cond_true. tauto.
Qed.

Lemma conll2003_offered_iff_witness :
  Format_wf sample_Format ∧ (length ["text"] ≤ 1)%nat ∧
  ∃ fmts, (_get_supported_formats sample_Format ["text"] schema_ner).1 = Ok fmts ∧
    "CONLL2003" ∈ fmts.
Proof.
  split; [exact sample_Format_wf|]. split; [simpl; lia|].
  destruct (conll2003_offered_iff sample_Format ["text"] schema_ner sample_Format_wf)
    as (fmts & Hcall & Hiff); [simpl; lia|].
  exists fmts. split; [exact Hcall|].
  apply Hiff. split; apply (bool_decide_unpack _); by vm_compute.
Defined.

(** X2: with at most one data key, BRUSH_TO_NUMPY and BRUSH_TO_PNG are
    offered together, exactly when [Image] is among the input types and
    the output types hold [BrushLabels], or [brushlabels], or both [Brush]
    and [Labels]; a list-valued input does not matter for them. *)
Theorem brush_offered_iff ms (dk : list string) (s : schema) :
  Format_wf ms → (length dk ≤ 1)%nat →
  ∃ fmts, (_get_supported_formats ms dk s).1 = Ok fmts ∧
    let I := input_tag_types (classify s) in
    let O := output_tag_types (classify s) in
    ("BRUSH_TO_NUMPY" ∈ fmts ↔
       "Image" ∈ I ∧ ("BrushLabels" ∈ O ∨ "brushlabels" ∈ O
                      ∨ ("Brush" ∈ O ∧ "Labels" ∈ O))) ∧
    ("BRUSH_TO_NUMPY" ∈ fmts ↔ "BRUSH_TO_PNG" ∈ fmts).
Proof.
  intros Hwf Hdk.
  destruct (single_key_elem ms dk s Hwf Hdk) as (fmts & Hcall & Hin).
  exists fmts. split; [done|]. simpl.
  assert (Hn : "BRUSH_TO_NUMPY" ∈ AiCenterFormat ms).
  { apply referenced_in_enum; [done|]. closed_member. }
  assert (Hp : "BRUSH_TO_PNG" ∈ AiCenterFormat ms).
  { apply referenced_in_enum; [done|]. closed_member. }
  rewrite !Hin, removed_BRUSH_TO_NUMPY, removed_BRUSH_TO_PNG,
    not_false_iff_true, brush_cond_true. tauto.
Qed.

Lemma brush_offered_iff_witness :
  Format_wf sample_Format ∧ (length ["image"] ≤ 1)%nat ∧
  ∃ fmts, (_get_supported_formats sample_Format ["image"] schema_brush).1 = Ok fmts ∧
    "BRUSH_TO_NUMPY" ∈ fmts ∧ "BRUSH_TO_PNG" ∈ fmts.
Proof.
  split; [exact sample_Format_wf|]. split; [simpl; lia|].
  destruct (brush_offered_iff sample_Format ["image"] schema_brush sample_Format_wf)
    as (fmts & Hcall & Hiff & Hboth); [simpl; lia|].
  exists fmts. split; [exact Hcall|].
  assert (Hn : "BRUSH_TO_NUMPY" ∈ fmts).
  { apply Hiff. split; [|left]; apply (bool_decide_unpack _); by vm_compute. }
  split; [exact Hn|]. apply Hboth, Hn.
Defined.

(** X3: with at most one data key, ASR_MANIFEST is offered exactly when
    [Audio] or [AudioPlus] is among the input types and [TextArea] among
    the output types. *)
Theorem asr_manifest_offered_iff ms (dk : list string) (s : schema) :
  Format_wf ms → (length dk ≤ 1)%nat →
  ∃ fmts, (_get_supported_formats ms dk s).1 = Ok fmts ∧
    ("ASR_MANIFEST" ∈ fmts ↔
       ("Audio" ∈ input_tag_types (classify s)
        ∨ "AudioPlus" ∈ input_tag_types (classify s))
       ∧ "TextArea" ∈ output_tag_types (classify s)).
Proof.
  intros Hwf Hdk.
  destruct (single_key_elem ms dk s Hwf Hdk) as (fmts & Hcall & Hin).
  exists fmts. split; [done|].
  assert (Hc : "ASR_MANIFEST" ∈ AiCenterFormat ms).
  { apply referenced_in_enum; [done|]. closed_member. }
  rewrite Hin, removed_ASR_MANIFEST, not_false_iff_true, asr_cond_true. tauto.
Qed.

Lemma asr_manifest_offered_iff_witness :
  Format_wf sample_Format ∧ (length ["audio"] ≤ 1)%nat ∧
  ∃ fmts, (_get_supported_formats sample_Format ["audio"] schema_asr).1 = Ok fmts ∧
    "ASR_MANIFEST" ∈ fmts.
Proof.
  split; [exact sample_Format_wf|]. split; [simpl; lia|].
  destruct (asr_manifest_offered_iff sample_Format ["audio"] schema_asr
              sample_Format_wf) as (fmts & Hcall & Hiff); [simpl; lia|].
  exists fmts. split; [exact Hcall|].
  apply Hiff. split; [left|]; apply (bool_decide_unpack _); by vm_compute.
Defined.

(** ** From the schema to the offered formats *)

Lemma classify_output_elem (s : schema) (x : string) :
  x ∈ output_tag_types (classify s) ↔ ∃ info, info ∈ s.*2 ∧ ti_type info = x.
Proof.
  rewrite classify_output, elem_of_list_to_set, list_elem_of_fmap. split.
  - intros (info & -> & Hi). by exists info.
  - intros (info & Hi & <-). by exists info.
Qed.

Lemma classify_input_elem (s : schema) (x : string) :
  x ∈ input_tag_types (classify s) ↔
  ∃ t, t ∈ all_inputs s ∧ url_free t ∧ it_type t = x.
Proof.
  rewrite classify_input, elem_of_list_to_set, list_elem_of_fmap. split.
  - intros (t & -> & Ht). apply list_elem_of_filter in Ht as [Hf Ht].
    exists t. split; [exact Ht|]. split; [exact Hf|reflexivity].
  - intros (t & Ht & Hf & <-). exists t. split; [done|].
    by apply list_elem_of_filter.
Qed.

Lemma classify_mig_true (s : schema) :
  is_mig (classify s) = true ↔
  ∃ t, t ∈ all_inputs s ∧ truthy (it_valueList t) = true.
Proof.
  rewrite classify_mig, existsb_exists. split.
  - intros (t & Ht & Hv). exists t. split; [by apply list_elem_of_In|done].
  - intros (t & Ht & Hv). exists t. split; [by apply list_elem_of_In|done].
Qed.

Lemma url_free_text (t : input_tag) :
  it_type t = "Text" → url_free t ↔ it_valueType t ≠ Some "url".
Proof.
  intros Hty. unfold url_free, is_url_text.
  rewrite andb_false_iff, !bool_decide_eq_false. tauto.
Qed.

(** X4: read on the schema itself, CONLL2003 is offered exactly when some
    control has type [Labels] and some input has type [Text] with a
    [valueType] other than [url]; a schema whose text inputs are all given
    by URL never offers it. *)
Theorem conll2003_needs_plain_text ms (dk : list string) (s : schema) :
  Format_wf ms → (length dk ≤ 1)%nat →
  ∃ fmts, (_get_supported_formats ms dk s).1 = Ok fmts ∧
    ("CONLL2003" ∈ fmts ↔
       (∃ t, t ∈ all_inputs s ∧ it_type t = "Text" ∧ it_valueType t ≠ Some "url")
       ∧ (∃ info, info ∈ s.*2 ∧ ti_type info = "Labels")) ∧
    ((∀ t, t ∈ all_inputs s → it_type t = "Text" → it_valueType t = Some "url") →
     "CONLL2003" ∉ fmts).
Proof.
  intros Hwf Hdk.
  destruct (single_key_elem ms dk s Hwf Hdk) as (fmts & Hcall & Hin).
  exists fmts. split; [done|].
  assert (Hc : "CONLL2003" ∈ AiCenterFormat ms).
  { apply referenced_in_enum; [done|]. closed_member. }
  assert (Hiff : "CONLL2003" ∈ fmts ↔
       (∃ t, t ∈ all_inputs s ∧ it_type t = "Text" ∧ it_valueType t ≠ Some "url")
       ∧ (∃ info, info ∈ s.*2 ∧ ti_type info = "Labels")).
  { rewrite Hin, removed_CONLL2003, not_false_iff_true, conll_cond_true,
      classify_input_elem, classify_output_elem.
    split.
    - intros (_ & (t & Ht & Hf & Hty) & Hlab). split; [|done].
      exists t. split; [done|]. split; [done|]. by apply url_free_text.
    - intros ((t & Ht & Hty & Hvt) & Hlab). split; [done|]. split; [|done].
      exists t. split; [done|]. split; [|done]. by apply url_free_text. }
  split; [exact Hiff|].
  intros Hall Hc2003. apply Hiff in Hc2003 as [(t & Ht & Hty & Hvt) _].
  apply Hvt. by apply Hall.
Qed.

Lemma conll2003_needs_plain_text_witness :
  Format_wf sample_Format ∧ (length ["text"] ≤ 1)%nat ∧
  ∃ fmts, (_get_supported_formats sample_Format ["text"] schema_url_text).1 = Ok fmts ∧
    "CONLL2003" ∉ fmts.
Proof.
  split; [exact sample_Format_wf|]. split; [simpl; lia|].
  destruct (conll2003_needs_plain_text sample_Format ["text"] schema_url_text
              sample_Format_wf) as (fmts & Hcall & _ & Hno); [simpl; lia|].
  exists fmts. split; [exact Hcall|].
  apply Hno. intros t Ht _.
  change (t ∈ [InputTag "Text" (Some "url") None]) in Ht.
  apply list_elem_of_singleton in Ht. rewrite Ht. reflexivity.
Defined.

(** X5: as soon as one input of the schema has a truthy [valueList] (also
    an input that the loop otherwise skips because it is a text given by
    URL), VOC, COCO, YOLO and YOLO_OBB are all withheld. *)
Theorem list_valued_input_withholds ms (dk : list string) (s : schema)
    (t : input_tag) :
  Format_wf ms → (length dk ≤ 1)%nat →
  t ∈ all_inputs s → truthy (it_valueList t) = true →
  ∃ fmts, (_get_supported_formats ms dk s).1 = Ok fmts ∧
    ("VOC" ∉ fmts) ∧ ("COCO" ∉ fmts) ∧ ("YOLO" ∉ fmts) ∧ ("YOLO_OBB" ∉ fmts).
Proof.
  intros Hwf Hdk Ht Hv.
  destruct (single_key_elem ms dk s Hwf Hdk) as (fmts & Hcall & Hin).
  exists fmts. split; [done|].
  assert (Hmig : is_mig (classify s) = true).
  { apply classify_mig_true. by exists t. }
  rewrite !Hin, removed_VOC, removed_COCO, removed_YOLO, removed_YOLO_OBB, Hmig.
  tauto.
Qed.

Lemma list_valued_input_withholds_witness :
  Format_wf sample_Format ∧ (length ["text"] ≤ 1)%nat ∧
  ∃ fmts, (_get_supported_formats sample_Format ["text"] schema_url_list).1 = Ok fmts ∧
    ("VOC" ∉ fmts) ∧ ("COCO" ∉ fmts) ∧ ("YOLO" ∉ fmts) ∧ ("YOLO_OBB" ∉ fmts).
Proof.
  split; [exact sample_Format_wf|]. split; [simpl; lia|].
  apply (list_valued_input_withholds sample_Format ["text"] schema_url_list
           (InputTag "Text" (Some "url") (Some (ABool true))) sample_Format_wf).
  - simpl; lia.
  - apply list_elem_of_here.
  - reflexivity.
Defined.

(** X6: whenever VOC is offered, COCO and YOLO are offered as well. *)
Theorem voc_implies_coco_yolo ms (dk : list string) (s : schema) :
  Format_wf ms → (length dk ≤ 1)%nat →
  ∃ fmts, (_get_supported_formats ms dk s).1 = Ok fmts ∧
    ("VOC" ∈ fmts → "COCO" ∈ fmts ∧ "YOLO" ∈ fmts).
Proof.
  intros Hwf Hdk.
  destruct (single_key_elem ms dk s Hwf Hdk) as (fmts & Hcall & Hin).
  exists fmts. split; [done|].
  assert (Hc : "COCO" ∈ AiCenterFormat ms).
  { apply referenced_in_enum; [done|]. closed_member. }
  assert (Hy : "YOLO" ∈ AiCenterFormat ms).
  { apply referenced_in_enum; [done|]. closed_member. }
  rewrite !Hin, removed_VOC, removed_COCO, removed_YOLO.
  intros [_ Hvoc].
  assert (Hm : is_mig (classify s) = false)
    by (destruct (is_mig (classify s)); [destruct Hvoc; by left|done]).
  assert (Hv : voc_cond (classify s) = true)
    by (destruct (voc_cond (classify s)); [done|destruct Hvoc; by right]).
  assert (Hco : coco_cond (classify s) = true).
  { apply coco_cond_true. apply voc_cond_true in Hv as [Himg [Hrl|Hrect]].
    - left. split; [done|by left].
    - right. by left. }
  rewrite Hm, Hco. intuition congruence.
Qed.

Lemma voc_implies_coco_yolo_witness :
  Format_wf sample_Format ∧ (length ["image"] ≤ 1)%nat ∧
  ∃ fmts, (_get_supported_formats sample_Format ["image"] schema_rect).1 = Ok fmts ∧
    ("VOC" ∈ fmts → "COCO" ∈ fmts ∧ "YOLO" ∈ fmts).
Proof.
  split; [exact sample_Format_wf|]. split; [simpl; lia|].
  apply (voc_implies_coco_yolo sample_Format ["image"] schema_rect sample_Format_wf).
  simpl; lia.
Defined.

(** ** The list-valued flag, growth and reordering of the schema *)

Lemma cond_mono (st1 st2 : scan_state) :
  input_tag_types st1 ⊆ input_tag_types st2 →
  output_tag_types st1 ⊆ output_tag_types st2 →
  (conll_cond st1 = true → conll_cond st2 = true)
  ∧ (voc_cond st1 = true → voc_cond st2 = true)
  ∧ (coco_cond st1 = true → coco_cond st2 = true)
  ∧ (brush_cond st1 = true → brush_cond st2 = true)
  ∧ (asr_cond st1 = true → asr_cond st2 = true).
Proof.
  intros HI HO.
  rewrite !conll_cond_true, !voc_cond_true, !coco_cond_true, !brush_cond_true,
    !asr_cond_true.
  assert (Hi : ∀ x, x ∈ input_tag_types st1 → x ∈ input_tag_types st2)
    by (intros x; apply HI).
  assert (Ho : ∀ x, x ∈ output_tag_types st1 → x ∈ output_tag_types st2)
    by (intros x; apply HO).
  clear HI HO. intuition auto.
Qed.

(** X7: two single-key calls whose schemas give the same tag-type sets can
    differ only on VOC, COCO, YOLO and YOLO_OBB, and a call without
    list-valued input offers everything the other call offers. *)
Theorem list_valued_flag_scope ms (dk1 dk2 : list string) (s1 s2 : schema) :
  Format_wf ms → (length dk1 ≤ 1)%nat → (length dk2 ≤ 1)%nat →
  output_tag_types (classify s1) = output_tag_types (classify s2) →
  input_tag_types (classify s1) = input_tag_types (classify s2) →
  ∃ f1 f2,
    (_get_supported_formats ms dk1 s1).1 = Ok f1 ∧
    (_get_supported_formats ms dk2 s2).1 = Ok f2 ∧
    (∀ x, x ∉ gated → (x ∈ f1 ↔ x ∈ f2)) ∧
    (is_mig (classify s1) = false → f2 ⊆ f1).
Proof.
  intros Hwf Hdk1 Hdk2 HO HI.
  destruct (single_key_elem ms dk1 s1 Hwf Hdk1) as (f1 & Hcall1 & Hin1).
  destruct (single_key_elem ms dk2 s2 Hwf Hdk2) as (f2 & Hcall2 & Hin2).
  exists f1, f2. split; [done|]. split; [done|].
  assert (Hc : conll_cond (classify s1) = conll_cond (classify s2)
               ∧ voc_cond (classify s1) = voc_cond (classify s2)
               ∧ coco_cond (classify s1) = coco_cond (classify s2)
               ∧ brush_cond (classify s1) = brush_cond (classify s2)
               ∧ asr_cond (classify s1) = asr_cond (classify s2)
               ∧ video_cond (classify s1) = video_cond (classify s2)).
  { unfold conll_cond, voc_cond, coco_cond, brush_cond, asr_cond, video_cond.
    by rewrite HO, HI. }
  destruct Hc as (Hc1 & Hc2 & Hc3 & Hc4 & Hc5 & Hc6).
  split.
  - intros x Hx. rewrite Hin1, Hin2, !removed_cases, Hc1, Hc4, Hc5.
    unfold gated in Hx. rewrite !elem_of_cons, elem_of_nil in Hx.
    intuition congruence.
  - intros Hm x. rewrite Hin1, Hin2, !removed_cases, Hc1, Hc2, Hc3, Hc4, Hc5, Hc6, Hm.
    intuition congruence.
Qed.

Lemma list_valued_flag_scope_witness :
  Format_wf sample_Format ∧ (length ["image"] ≤ 1)%nat ∧
  ∃ f1 f2,
    (_get_supported_formats sample_Format ["image"] schema_rect).1 = Ok f1 ∧
    (_get_supported_formats sample_Format ["image"] schema_rect_list).1 = Ok f2 ∧
    f2 ⊆ f1.
Proof.
  split; [exact sample_Format_wf|]. split; [simpl; lia|].
  destruct (list_valued_flag_scope sample_Format ["image"] ["image"] schema_rect
              schema_rect_list sample_Format_wf)
    as (f1 & f2 & H1 & H2 & _ & Hsub).
  - simpl; lia.
  - simpl; lia.
  - reflexivity.
  - reflexivity.
  - exists f1, f2. split; [exact H1|]. split; [exact H2|]. apply Hsub. reflexivity.
Defined.

Lemma implied_false (b1 b2 : bool) :
  (b1 = true → b2 = true) → b2 = false → b1 = false.
Proof. destruct b1, b2; intuition congruence. Qed.

Lemma classify_app_subseteq (s1 s2 : schema) :
  input_tag_types (classify s1) ⊆ input_tag_types (classify (s1 ++ s2))
  ∧ output_tag_types (classify s1) ⊆ output_tag_types (classify (s1 ++ s2)).
Proof.
  split; intros x.
  - rewrite !classify_input_elem. intros (t & Ht & Hrest). exists t.
    split; [|done]. apply all_inputs_elem in Ht as (info & Hi & Ht).
    apply all_inputs_elem. exists info. split; [|done].
    rewrite fmap_app. apply elem_of_app. by left.
  - rewrite !classify_output_elem. intros (info & Hi & Hty). exists info.
    split; [|done]. rewrite fmap_app. apply elem_of_app. by left.
Qed.

Lemma classify_app_mig (s1 s2 : schema) :
  is_mig (classify (s1 ++ s2)) = false → is_mig (classify s1) = false.
Proof.
  intros Hm. destruct (is_mig (classify s1)) eqn:H1; [|done].
  apply classify_mig_true in H1 as (t & Ht & Hv).
  rewrite <- Hm. symmetry. apply classify_mig_true. exists t. split; [|done].
  apply all_inputs_elem in Ht as (info & Hi & Ht).
  apply all_inputs_elem. exists info. split; [|done].
  rewrite fmap_app. apply elem_of_app. by left.
Qed.

(** X8: adding controls to a schema never withdraws a format other than
    YOLO_OBB, as long as the grown schema has no list-valued input. *)
Theorem more_controls_keep_formats ms (dk : list string) (s1 s2 : schema) :
  Format_wf ms → (length dk ≤ 1)%nat →
  is_mig (classify (s1 ++ s2)) = false →
  ∃ f1 f12,
    (_get_supported_formats ms dk s1).1 = Ok f1 ∧
    (_get_supported_formats ms dk (s1 ++ s2)).1 = Ok f12 ∧
    ∀ x, x ∈ f1 → x ≠ "YOLO_OBB" → x ∈ f12.
Proof.
  intros Hwf Hdk Hm12.
  destruct (single_key_elem ms dk s1 Hwf Hdk) as (f1 & Hcall1 & Hin1).
  destruct (single_key_elem ms dk (s1 ++ s2) Hwf Hdk) as (f12 & Hcall12 & Hin12).
  exists f1, f12. split; [done|]. split; [done|].
  pose proof (classify_app_mig s1 s2 Hm12) as Hm1.
  destruct (classify_app_subseteq s1 s2) as [HI HO].
  destruct (cond_mono _ _ HI HO) as (Hc1 & Hc2 & Hc3 & Hc4 & Hc5).
  intros x. rewrite Hin1, Hin12, !removed_cases, Hm1, Hm12.
  intros [Hen Hkeep] Hobb. split; [done|].
  intros Hrem. apply Hkeep.
  destruct Hrem as [[Hx H]|[[Hx H]|[[Hx H]|[[Hx H]|[[Hx H]|[Hx H]]]]]].
  - left. split; [done|]. by apply (implied_false _ _ Hc1).
  - right; left. split; [done|]. right.
    destruct H as [H|H]; [discriminate|]. by apply (implied_false _ _ Hc2).
  - right; right; left. split; [done|]. right.
    destruct H as [H|H]; [discriminate|]. by apply (implied_false _ _ Hc3).
  - right; right; right; left. split; [done|]. by apply (implied_false _ _ Hc4).
  - right; right; right; right; left. split; [done|].
    by apply (implied_false _ _ Hc5).
  - by destruct Hobb.
Qed.

Lemma more_controls_keep_formats_witness :
  Format_wf sample_Format ∧ (length ["image"] ≤ 1)%nat ∧
  ∃ f1 f12,
    (_get_supported_formats sample_Format ["image"] schema_rect).1 = Ok f1 ∧
    (_get_supported_formats sample_Format ["image"] (schema_rect ++ schema_asr)).1
    = Ok f12 ∧
    ∀ x, x ∈ f1 → x ≠ "YOLO_OBB" → x ∈ f12.
Proof.
  split; [exact sample_Format_wf|]. split; [simpl; lia|].
  apply (more_controls_keep_formats sample_Format ["image"] schema_rect schema_asr
           sample_Format_wf).
  - simpl; lia.
  - reflexivity.
Defined.

Lemma existsb_perm {A} (f : A → bool) (l1 l2 : list A) :
  l1 ≡ₚ l2 → existsb f l1 = existsb f l2.
Proof.
  intros Hp. induction Hp as [|x l1 l2 _ IH|x y l|l1 l2 l3 _ IH1 _ IH2]; simpl.
  - done.
  - by rewrite IH.
  - destruct (f x), (f y); done.
  - by rewrite IH1.
Qed.

Lemma fmap_const_replicate {A B} (y : B) (l : list A) :
  (λ _, y) <$> l = replicate (length l) y.
Proof. induction l as [|x l IH]; [done|]. rewrite fmap_cons. simpl. by f_equal. Qed.

Lemma all_inputs_perm (s1 s2 : schema) :
  s1 ≡ₚ s2 → all_inputs s1 ≡ₚ all_inputs s2.
Proof. intros Hp. unfold all_inputs. by rewrite Hp. Qed.

Lemma scan_state_eq (st1 st2 : scan_state) :
  output_tag_types st1 = output_tag_types st2 →
  input_tag_types st1 = input_tag_types st2 →
  is_mig st1 = is_mig st2 → log st1 = log st2 → st1 = st2.
Proof. destruct st1, st2. simpl. by intros -> -> -> ->. Qed.

Lemma classify_perm (s1 s2 : schema) : s1 ≡ₚ s2 → classify s1 = classify s2.
Proof.
  intros Hp. pose proof (all_inputs_perm s1 s2 Hp) as Hi.
  apply scan_state_eq.
  - rewrite !classify_output. by rewrite Hp.
  - rewrite !classify_input. by rewrite Hi.
  - rewrite !classify_mig. by apply existsb_perm.
  - rewrite !classify_log, !fmap_const_replicate. f_equal.
    apply Permutation_length. by rewrite Hi.
Qed.

(** X9: the order of the entries of the schema does not matter: two
    schemas that are permutations of each other give the same formats and
    the same log. *)
Theorem schema_order_irrelevant ms (dk : list string) (s1 s2 : schema) :
  s1 ≡ₚ s2 →
  _get_supported_formats ms dk s1 = _get_supported_formats ms dk s2.
Proof.
  intros Hp. unfold _get_supported_formats.
  by rewrite (classify_perm s1 s2 Hp).
Qed.

Lemma schema_order_irrelevant_witness :
  (schema_rect ++ schema_asr ≡ₚ schema_asr ++ schema_rect) ∧
  _get_supported_formats sample_Format ["image"] (schema_rect ++ schema_asr)
  = _get_supported_formats sample_Format ["image"] (schema_asr ++ schema_rect).
Proof.
  assert (Hp : schema_rect ++ schema_asr ≡ₚ schema_asr ++ schema_rect)
    by apply Permutation_app_comm.
  split; [exact Hp|].
  apply (schema_order_irrelevant sample_Format ["image"] _ _ Hp).
Defined.

(** X10: the returned sequence never lists a format twice. *)
Theorem formats_no_duplicates ms (dk : list string) (s : schema) :
  Format_wf ms →
  ∃ fmts, (_get_supported_formats ms dk s).1 = Ok fmts ∧ NoDup fmts.
Proof.
  intros Hwf. destruct (decide (1 < length dk)%nat) as [Hdk|Hdk].
  - rewrite multi_key_call by done. simpl. eexists. split; [done|].
    closed_member.
  - rewrite single_key_call by (done || lia). simpl. eexists. split; [done|].
    apply NoDup_filter, Hwf.
Qed.

Lemma formats_no_duplicates_witness :
  Format_wf sample_Format ∧
  ∃ fmts, (_get_supported_formats sample_Format ["image"] schema_rect).1 = Ok fmts
          ∧ NoDup fmts.
Proof.
  split; [exact sample_Format_wf|].
  apply (formats_no_duplicates sample_Format ["image"] schema_rect sample_Format_wf).
Defined.

(** X11: a single-key call logs one [ERROR] record per URL-valued text
    input of the schema (counted with repetition) and nothing else; a
    multi-key call logs nothing, whatever the schema holds. *)
Theorem log_one_record_per_url_text ms (dk : list string) (s : schema) :
  ((length dk ≤ 1)%nat →
   (_get_supported_formats ms dk s).2
   = replicate (length (filter (λ t, is_url_text t = true) (all_inputs s)))
       (ERROR, url_text_message)) ∧
  ((1 < length dk)%nat → (_get_supported_formats ms dk s).2 = []).
Proof.
  unfold _get_supported_formats.
  destruct (decide (1 < length dk)%nat) as [Hdk|Hdk]; simpl.
  - split; [lia|done].
  - split; [|done]. intros _. by rewrite classify_log, fmap_const_replicate.
Qed.

Lemma log_one_record_per_url_text_witness :
  (length ["text"] ≤ 1)%nat ∧
  (_get_supported_formats sample_Format ["text"] (schema_url_text ++ schema_url_list)).2
  = [(ERROR, url_text_message); (ERROR, url_text_message)] ∧
  (1 < length ["a"; "b"])%nat ∧
  (_get_supported_formats sample_Format ["a"; "b"] schema_url_text).2 = [].
Proof.
  assert (H1 : (length ["text"] ≤ 1)%nat) by (simpl; lia).
  assert (H2 : (1 < length ["a"; "b"])%nat) by (simpl; lia).
  split; [exact H1|]. split; [|split; [exact H2|]].
  - rewrite (proj1 (log_one_record_per_url_text sample_Format ["text"]
                      (schema_url_text ++ schema_url_list)) H1).
    reflexivity.
  - apply (proj2 (log_one_record_per_url_text sample_Format ["a"; "b"]
                    schema_url_text) H2).
Defined.

(** X12: for a schema without any control, a single-key call logs nothing
    and offers every member of the enumeration except CONLL2003, VOC, COCO,
    YOLO, BRUSH_TO_NUMPY, BRUSH_TO_PNG and ASR_MANIFEST; YOLO_OBB is
    offered. *)
Theorem empty_schema_formats ms (dk : list string) :
  Format_wf ms → (length dk ≤ 1)%nat →
  ∃ fmts, _get_supported_formats ms dk [] = (Ok fmts, []) ∧
    (∀ x, x ∈ fmts ↔ x ∈ AiCenterFormat ms ∧ x ∉ unmet_when_empty) ∧
    "YOLO_OBB" ∈ fmts.
Proof.
  intros Hwf Hdk. rewrite single_key_call by done.
  eexists. split; [reflexivity|].
  assert (Hall : ∀ x, x ∈ filter (λ y, y ∉ active_names (rules (classify [])))
                        (AiCenterFormat ms)
                      ↔ x ∈ AiCenterFormat ms ∧ x ∉ unmet_when_empty).
  { intros x. rewrite list_elem_of_filter.
    change (active_names (rules (classify []))) with unmet_when_empty. tauto. }
  split; [exact Hall|].
  apply Hall. split.
  - apply referenced_in_enum; [done|]. closed_member.
  - closed_member.
Qed.

Lemma empty_schema_formats_witness :
  Format_wf sample_Format ∧ (length ["image"] ≤ 1)%nat ∧
  ∃ fmts, _get_supported_formats sample_Format ["image"] [] = (Ok fmts, []) ∧
    "YOLO_OBB" ∈ fmts.
Proof.
  split; [exact sample_Format_wf|]. split; [simpl; lia|].
  destruct (empty_schema_formats sample_Format ["image"] sample_Format_wf)
    as (fmts & Hcall & _ & Hobb); [simpl; lia|].
  exists fmts. split; [exact Hcall|exact Hobb].
Defined.

(* ================================================================= *)
(** * Further properties of the converter *)

(** X13: every format that [_get_supported_formats] offers is accepted by
    [convert]: its name resolves through [from_string], so the call is the
    PULC serializer or the base class's [convert] and never ends in the
    [ValueError] for an unknown name. *)
Theorem offered_formats_resolve ms (iter_dir iter_json : iterator) (K : Type)
    (super : FS → string → string → format_arg → bool → K → result unit * FS)
    (dk : list string) (s : schema) (fmts : list string) (f : string)
    (fs : FS) (input_data output_data : string) (is_dir : bool) (kw : K) :
  Format_wf ms →
  (_get_supported_formats ms dk s).1 = Ok fmts → f ∈ fmts →
  from_string ms f = Ok f ∧
  convert ms iter_dir iter_json K super fs input_data output_data (FStr f) is_dir kw
  = if decide (f = "PULC")
    then convert_to_pulc iter_dir iter_json fs input_data output_data is_dir
    else super fs input_data output_data (FStr f) is_dir kw.
Proof.
  intros Hwf Hcall Hf.
  assert (Hen : f ∈ AiCenterFormat ms).
  { destruct (decide (1 < length dk)%nat) as [Hdk|Hdk].
    - rewrite multi_key_call in Hcall by done. simpl in Hcall.
      injection Hcall as <-.
      destruct (decide (f = "PULC")) as [->|Hne]; [apply PULC_member|].
      apply referenced_in_enum; [done|].
      repeat rewrite elem_of_cons in Hf. rewrite elem_of_nil in Hf.
      unfold referenced_members. rewrite !elem_of_cons. tauto.
    - rewrite single_key_call in Hcall by (done || lia). simpl in Hcall.
      injection Hcall as <-. by apply list_elem_of_filter in Hf as [_ Hf]. }
  split; [by apply from_string_member|].
  unfold convert. by rewrite from_string_member.
Qed.

Lemma offered_formats_resolve_witness :
  Format_wf sample_Format ∧
  ∃ fmts, (_get_supported_formats sample_Format ["image"] schema_rect).1 = Ok fmts ∧
    "COCO" ∈ fmts ∧ from_string sample_Format "COCO" = Ok "COCO".
Proof.
  split; [exact sample_Format_wf|].
  destruct (single_key_elem sample_Format ["image"] schema_rect sample_Format_wf)
    as (fmts & Hcall & Hin); [simpl; lia|].
  assert (Hc : "COCO" ∈ fmts).
  { apply Hin. split; apply (bool_decide_unpack _); by vm_compute. }
  exists fmts. split; [exact Hcall|]. split; [exact Hc|].
  apply (offered_formats_resolve sample_Format (iter_const []) (iter_const []) unit
           super_noop ["image"] schema_rect fmts "COCO" fs_empty "in" "out" true tt
           sample_Format_wf Hcall Hc).
Defined.




Lemma collect_records_app (records : list string) (pre rest : list item) :
  Forall has_fields pre →
  ∃ lines, collect_records records (pre ++ rest)
           = collect_records (records ++ lines) rest.
Proof.
  revert records. induction pre as [|it pre IH]; intros records Hall.
  - exists []. by rewrite app_nil_r.
  - apply Forall_cons in Hall as [Hit Hall].
    destruct (pulc_line_ok it Hit) as (line & Hline & _).
    destruct (IH (records ++ [line]) Hall) as (lines & Hrec).
    exists (line :: lines). simpl. rewrite Hline. simpl. rewrite Hrec.
    by rewrite <- app_assoc.
Qed.

(** X16: the first record that lacks a field decides the exception,
    whatever follows it and however the record source would end:
    [KeyError] for [image] when the input field is missing (also when the
    choice is missing too), [KeyError] for [choice] when only the output
    field is missing. *)
Theorem pulc_first_bad_record (iter_dir iter_json : iterator) (fs : FS)
    (input_data output_dir : string) (is_dir : bool)
    (pre post : list item) (it : item) (pending : option exn) :
  (if is_dir then iter_dir else iter_json) (ensure_dir output_dir fs) input_data
  = (pre ++ it :: post, pending) →
  Forall has_fields pre →
  (input it !! "image" = None →
   (convert_to_pulc iter_dir iter_json fs input_data output_dir is_dir).1
   = Raise (KeyError "image")) ∧
  (is_Some (input it !! "image") → output it !! "choice" = None →
   (convert_to_pulc iter_dir iter_json fs input_data output_dir is_dir).1
   = Raise (KeyError "choice")).
Proof.
  intros Hit Hpre. unfold convert_to_pulc. rewrite Hit.
  destruct (collect_records_app [] pre (it :: post) Hpre) as (lines & ->).
  simpl. unfold pulc_line, dict_get. split.
  - intros ->. done.
  - intros [img ->] ->. done.
Qed.

Lemma pulc_first_bad_record_witness :
  Forall has_fields [record_a] ∧
  (convert_to_pulc (iter_const [record_a; record_no_choice; record_b])
     (iter_const []) fs_empty "in" "out" true).1 = Raise (KeyError "choice").
Proof.
  assert (Hall : Forall has_fields [record_a]).
  { constructor; [|constructor]. split; eexists; reflexivity. }
  split; [exact Hall|].
  apply (pulc_first_bad_record (iter_const [record_a; record_no_choice; record_b])
           (iter_const []) fs_empty "in" "out" true [record_a] [record_b]
           record_no_choice None eq_refl Hall).
  - eexists; reflexivity.
  - reflexivity.
Defined.

(** X17: a second successful export into the same directory replaces the
    first: the final state is the one a single export of the second source
    would give, so [result.txt] holds the lines of the second run only (no
    lines when that source is empty). *)
Theorem pulc_second_export_replaces (a_dir a_json b_dir b_json : iterator)
    (fs : FS) (in1 in2 out : string) (d1 d2 : bool) (items1 items2 : list item) :
  (if d1 then a_dir else a_json) (ensure_dir out fs) in1 = (items1, None) →
  Forall has_fields items1 →
  (if d2 then b_dir else b_json)
    (ensure_dir out (convert_to_pulc a_dir a_json fs in1 out d1).2) in2
  = (items2, None) →
  Forall has_fields items2 →
  ∃ lines2,
    Forall2 line_of items2 lines2 ∧
    convert_to_pulc b_dir b_json (convert_to_pulc a_dir a_json fs in1 out d1).2
      in2 out d2
    = (Ok (),
       {| dirs := {[ out ]} ∪ dirs fs;
          files := <[ os_path_join out "result.txt"
                      := String.concat Chr.newline lines2 ]> (files fs) |}).
Proof.
  intros H1 Hall1 H2 Hall2.
  destruct (collect_records_ok [] items1 Hall1) as (lines1 & Hrec1 & _).
  destruct (collect_records_ok [] items2 Hall2) as (lines2 & Hrec2 & Hlines2).
  exists lines2. split; [done|].
  assert (Hrun1 : convert_to_pulc a_dir a_json fs in1 out d1
                  = (Ok (), write_file (os_path_join out "result.txt")
                              (String.concat Chr.newline lines1)
                              (ensure_dir out fs))).
  { unfold convert_to_pulc. by rewrite H1, Hrec1. }
  rewrite Hrun1 in H2 |- *. simpl in H2 |- *.
  unfold convert_to_pulc. rewrite H2, Hrec2. simpl.
  unfold write_file, ensure_dir. simpl. f_equal. f_equal.
  - set_solver.
  - apply insert_insert_eq.
Qed.

Lemma pulc_second_export_replaces_witness :
  Forall has_fields [record_a] ∧ Forall has_fields ([] : list item) ∧
  convert_to_pulc (iter_const []) (iter_const [])
    (convert_to_pulc (iter_const [record_a]) (iter_const [record_a])
       fs_empty "in" "out" true).2 "in" "out" true
  = (Ok (), {| dirs := {[ "out" ]};
               files := {[ "out/result.txt" := EmptyString ]} |}).
Proof.
  assert (Hall : Forall has_fields [record_a]).
  { constructor; [|constructor]. split; eexists; reflexivity. }
  split; [exact Hall|]. split; [constructor|].
  destruct (pulc_second_export_replaces (iter_const [record_a])
              (iter_const [record_a]) (iter_const []) (iter_const [])
              fs_empty "in" "in" "out" true true [record_a] [] eq_refl Hall
              eq_refl (Forall_nil_2 _))
    as (lines2 & Hlines & Hrun).
  apply Forall2_nil_inv_l in Hlines. rewrite Hlines in Hrun.
  rewrite Hrun. reflexivity.
Defined.

Lemma length_append (a b : string) :
  String.length (a +:+ b) = String.length a + String.length b.
Proof. induction a as [|c a IH]; [done|]. simpl. by rewrite IH. Qed.

Lemma append_inv_tail (a b t : string) : a +:+ t = b +:+ t → a = b.
Proof.
  revert b. induction a as [|c a IH]; intros [|c' b] H.
  - done.
  - apply (f_equal String.length) in H.
    change (EmptyString +:+ t) with t in H.
    rewrite length_append in H. simpl in H. lia.
  - apply (f_equal String.length) in H.
    change (EmptyString +:+ t) with t in H.
    rewrite length_append in H. simpl in H. lia.
  - simpl in H. injection H as -> H. f_equal. by apply IH.
Qed.

(** X18: exports into two different output directories (non-empty, written
    without a trailing slash) never write the same file. *)
Theorem result_paths_distinct (d1 d2 : string) :
  d1 ≠ EmptyString → ends_with_sep d1 = false →
  d2 ≠ EmptyString → ends_with_sep d2 = false →
  d1 ≠ d2 →
  os_path_join d1 "result.txt" ≠ os_path_join d2 "result.txt".
Proof.
  intros Hn1 Hs1 Hn2 Hs2 Hne Heq.
  rewrite !result_path in Heq by done.
  by apply Hne, (append_inv_tail d1 d2 "/result.txt").
Qed.

Lemma result_paths_distinct_witness :
  os_path_join "out" "result.txt" ≠ os_path_join "out2" "result.txt".
Proof.
  apply (result_paths_distinct "out" "out2"); (reflexivity || discriminate).
Defined.
